(** * pyspear.bayesian.model

    A shallow embedding of [src/pyspear/bayesian/model.py]: the two model
    builders [make_model_powexp] and [make_model_cov3par], the prior
    "recipes" they dispatch on, and the observed likelihood node that hands
    the three hyper-parameters to the external likelihood engine [PRH].

    Conventions of the embedding.

    - Python floats are read as real numbers ([R]): [np.log], [np.sqrt],
      [np.abs], [/] and [**2.] are the real functions [ln], [sqrt], [Rabs],
      [Rdiv] and [pow _ 2].  Rounding is not modelled.  The real functions are
      total in Rocq; where a statement depends on an argument being inside
      the mathematical domain (a positive argument of the logarithm, a
      non-zero divisor) it says so.
    - [-np.Inf] and the value [None] of a function that falls off its end
      are kept apart from the reals ([logp_val], [option]).
    - A [str] compared with [==] is its characters.  [covfunc] is compared
      with [is], which looks at the identity of the object, so it is a
      [pystr]: its characters and whether it is the interned object that a
      literal in the source denotes.
    - The builders run in a small state-and-exception monad [Py] over a
      [world] that holds the dataset object [zydata] refers to, the lines
      printed so far and the calls made to the likelihood engine.
    - What the probabilistic-programming framework ([pm]) does with a node
      is outside this file: a declaration is the record of what it was
      declared with ([node], [observed]), and neither evaluates a
      log-probability nor fails.  A run that returns here is a run in which
      no statement of the builder itself raises. *)

From Stdlib Require Import Reals Lra String List Bool.
Import ListNotations.

Local Open Scope string_scope.
Local Open Scope list_scope.
Local Open Scope R_scope.

(* ------------------------------------------------------------------ *)
(** ** Numbers *)

Definition Rltb (x y : R) : bool := if Rlt_dec x y then true else false.
Definition Rleb (x y : R) : bool := if Rle_dec x y then true else false.

Declare Scope pyfloat_scope.
Delimit Scope pyfloat_scope with py.
Infix "<?" := Rltb (at level 70, no associativity) : pyfloat_scope.
Infix "<=?" := Rleb (at level 70, no associativity) : pyfloat_scope.
Notation "x >? y" := (Rltb y x) (at level 70, no associativity) : pyfloat_scope.
Local Open Scope pyfloat_scope.

Definition np_log (x : R) : R := ln x.
Definition np_sqrt (x : R) : R := sqrt x.
Definition np_abs (x : R) : R := Rabs x.

(** What a [logp] function hands back when it returns: a finite
    log-density or [-np.Inf].  A function that returns nothing gives
    [None] (the [option] around it). *)
Inductive logp_val : Type :=
| Finite (x : R)
| NegInf.

(* ------------------------------------------------------------------ *)
(** ** Python values of the arguments *)

(** A [str] object as [is] sees it. *)
Record pystr : Type := mk_pystr { chars : string; interned : bool }.

(** The object a string literal of the source denotes. *)
Definition lit (s : string) : pystr := {| chars := s; interned := true |}.

(** [a is "s"]: [a] is the very object the literal denotes. *)
Definition py_is (a : pystr) (s : string) : bool :=
  interned a && String.eqb (chars a) s.

(** [use_sigprior], [use_tauprior], [use_nuprior]: "str or float". *)
Inductive pyval : Type :=
| PyStr (s : string)
| PyFloat (x : R)
| PyNone.

(** [v == "s"] *)
Definition py_eq (v : pyval) (s : string) : bool :=
  match v with
  | PyStr s' => String.eqb s' s
  | _ => false
  end.

Infix "==s" := py_eq (at level 70, no associativity) : pyfloat_scope.

(* ------------------------------------------------------------------ *)
(** ** Log-densities and transforms declared by the builders *)

(** [sigma.logp] under [use_sigprior == "CSK"] (lines 42-46, 200-204). *)
Definition sigma_logp (value : R) : option logp_val :=
  if value >? 0.0 then Some (Finite (- np_log value))
  else if value <? 0.0 then Some NegInf
  else None.

(** [tau.logp] under [use_tauprior == "CSK"] (lines 79-85, 236-242);
    [10000 > value > 1.0*cadence] is the conjunction of its two halves. *)
Definition tau_logp (cadence value : R) : option logp_val :=
  if (10000 >? value) && (value >? 1.0 * cadence)
  then Some (Finite (- np_log (value / (1.0 * cadence))))
  else if (0.0 <? value) && (value <=? 1.0 * cadence)
  then Some (Finite (- np_log (1.0 * cadence / value)))
  else Some NegInf.

(** The deterministic [sigma] under "Vague" and "Gamma"
    (lines 50-51, 55-56, 208-209, 213-214). *)
Definition sigma_of_invsigsq (invsigsq : R) : R :=
  1.0 / np_sqrt invsigsq.

(** The deterministic [sigma] under "None" (lines 61-65, 218-222). *)
Definition sigma_of_invsigsq_guarded (invsigsq : R) : R :=
  if np_abs invsigsq <? 1e-6 then 1e6
  else 1.0 / np_sqrt (np_abs invsigsq).

(* ------------------------------------------------------------------ *)
(** ** Declarations handed to the framework *)

(** A prior, a transform of one, or a plain float: what the names
    [sigma], [tau], [nu] and [invsigsq] can be bound to. *)
Inductive node : Type :=
| Stochastic (name : string) (logp : R -> option logp_val) (value : R)
| Gamma (name : string) (alpha beta value : R)
| InverseGamma (name : string) (alpha beta value : R)
| Uninformative (name : string) (value : R)
| Uniform (name : string) (lower upper value : R)
| Deterministic (name : string) (eval : R -> R) (parent : node)
| Fixed (x : R).

(* ------------------------------------------------------------------ *)
(** ** The world, exceptions and the monad *)

(** The dataset: the three attributes the builders read. *)
Record zyLC : Type := mk_zyLC { cont_cad : R; rj : R; marr : list R }.

(** An instance of the likelihood engine is what it was constructed with. *)
Record PRH : Type := mk_PRH {
  prh_zydata : zyLC;
  prh_covfunc : pystr;
  prh_sigma : R;
  prh_tau : R;
  prh_nu : R
}.

Inductive prh_call : Type :=
| PRH_init (p : PRH)
| PRH_loglike_prh (p : PRH).

Record world : Type := mk_world {
  zydata_obj : zyLC;
  stdout : list string;
  prh_calls : list prh_call
}.

Inductive exn : Type :=
| RuntimeError (msg : string)
| UnboundLocalError (name : string)
| ValueError (msg : string).

Inductive result (A : Type) : Type :=
| Ok (a : A)
| Raise (e : exn).
Arguments Ok {A} a.
Arguments Raise {A} e.

Definition Py (A : Type) : Type := world -> result A * world.

Definition ret {A} (a : A) : Py A := fun w => (Ok a, w).

Definition bind {A B} (c : Py A) (k : A -> Py B) : Py B :=
  fun w =>
    match c w with
    | (Ok a, w') => k a w'
    | (Raise e, w') => (Raise e, w')
    end.

Definition raise {A} (e : exn) : Py A := fun w => (Raise e, w).

Notation "x <- c ;; k" := (bind c (fun x => k))
  (at level 61, c at next level, right associativity) : pyfloat_scope.
Notation "c ;;; k" := (bind c (fun _ => k))
  (at level 61, right associativity) : pyfloat_scope.

(** [zydata.attr] *)
Definition getattr {A} (attr : zyLC -> A) : Py A :=
  fun w => (Ok (attr (zydata_obj w)), w).

(** [print(line)] *)
Definition print (line : string) : Py unit :=
  fun w => (Ok tt, {| zydata_obj := zydata_obj w;
                      stdout := stdout w ++ [line];
                      prh_calls := prh_calls w |}).

(** Reading a local name that no executed branch has assigned. *)
Definition local {A} (name : string) (v : option A) : Py A :=
  match v with
  | Some a => ret a
  | None => raise (UnboundLocalError name)
  end.

(** [a.max()] and [a.min()]: numpy refuses an empty array. *)
Definition arr_max (a : list R) : Py R :=
  match a with
  | [] => raise (ValueError "zero-size array to reduction operation maximum which has no identity")
  | x :: a' => ret (fold_left Rmax a' x)
  end.

Definition arr_min (a : list R) : Py R :=
  match a with
  | [] => raise (ValueError "zero-size array to reduction operation minimum which has no identity")
  | x :: a' => ret (fold_left Rmin a' x)
  end.

(** Lines 32-34 and 161-163, "light curve stat": [cadence], [rx], [ry]. *)
Definition light_curve_stat : Py (R * R * R) :=
  cadence <- getattr cont_cad ;;
  rx <- getattr rj ;;
  a <- getattr marr ;;
  ymax <- arr_max a ;;
  a' <- getattr marr ;;
  ymin <- arr_min a' ;;
  let ry := ymax - ymin in
  ret (cadence, rx, ry).

(** The observed node: its [value], its three parents and the function
    the framework calls with the parents' current values. *)
Record observed : Type := mk_observed {
  obs_value : list R;
  obs_sigma : node;
  obs_tau : node;
  obs_nu : node;
  obs_logp : list R -> R -> R -> R -> Py R
}.

(** What [locals()] holds when [make_model_powexp] returns. *)
Record powexp_locals : Type := mk_powexp_locals {
  pe_cadence : R;
  pe_rx : R;
  pe_ry : R;
  pe_invsigsq : option node;
  pe_sigma : node;
  pe_tau : node;
  pe_nu : node;
  pe_guess : list R;
  pe_model_powexp : observed
}.

(** What [locals()] holds when [make_model_cov3par] returns; a local that
    no executed branch assigned is absent ([None]). *)
Record cov3par_locals : Type := mk_cov3par_locals {
  c3_cadence : R;
  c3_rx : R;
  c3_ry : R;
  c3_sigma_init : option R;
  c3_tau_init : option R;
  c3_nu_init : option R;
  c3_par_init : list R;
  c3_nu_limits : option (R * R);
  c3_invsigsq : option node;
  c3_sigma : node;
  c3_tau : node;
  c3_nu : node;
  c3_guess : list R;
  c3_model_cov3par : observed
}.

(* ------------------------------------------------------------------ *)
(** ** The builders *)

Section Builders.

(** The built-in [float()] on a [str]: the number it parses to, or [None]
    where it raises. *)
Variable float_of_str : string -> option R.

(** ["%.3f" % x] and ["%s" % x] on a float. *)
Variable fmt_3f : R -> string.
Variable fmt_s : R -> string.

(** The likelihood engine: the tuple [loglike_prh()] returns, whose first
    component is the log-likelihood. *)
Variable loglike_prh : PRH -> R * list R.

(** [float(v)]; [None] where it raises. *)
Definition py_float (v : pyval) : option R :=
  match v with
  | PyStr s => float_of_str s
  | PyFloat x => Some x
  | PyNone => None
  end.

(** ["%s" % v] *)
Definition py_str (v : pyval) : string :=
  match v with
  | PyStr s => s
  | PyFloat x => fmt_s x
  | PyNone => "None"
  end.

(** The [else] branch the three dispatches share: [try: float(v)], the
    line printed under [set_verbose], and the [RuntimeError] raised by
    [except:]. *)
Definition fixed_prior (par : string) (v : pyval) (set_verbose : bool) : Py node :=
  match py_float v with
  | Some x =>
      (if set_verbose then print (par ++ " is fixed to be " ++ fmt_3f x) else ret tt) ;;;
      ret (Fixed x)
  | None => raise (RuntimeError ("no such prior for " ++ par ++ " " ++ py_str v))
  end.

(** Lines 39-72 and 197-229: the names [invsigsq] (when assigned) and
    [sigma]. *)
Definition sigma_prior (ry : R) (use_sigprior : pyval) (set_verbose : bool)
  : Py (option node * node) :=
  if use_sigprior ==s "CSK" then
    ret (None, Stochastic "sigma" sigma_logp (ry / 4.0))
  else if use_sigprior ==s "Vague" then
    let invsigsq := Gamma "invsigsq" 0.001 0.001 (1.0 / (ry / 4.0) ^ 2) in
    ret (Some invsigsq, Deterministic "sigma" sigma_of_invsigsq invsigsq)
  else if use_sigprior ==s "Gamma" then
    let invsigsq := Gamma "invsigsq" 2.0 (1.0 / (ry / 4.0) ^ 2) (1.0 / (ry / 4.0) ^ 2) in
    ret (Some invsigsq, Deterministic "sigma" sigma_of_invsigsq invsigsq)
  else if use_sigprior ==s "None" then
    let invsigsq := Uninformative "invsigsq" (1.0 / (ry / 4.0) ^ 2) in
    ret (Some invsigsq, Deterministic "sigma" sigma_of_invsigsq_guarded invsigsq)
  else
    sigma <- fixed_prior "sigma" use_sigprior set_verbose ;;
    ret (None, sigma).

(** Lines 75-100 and 232-257: the name [tau]. *)
Definition tau_prior (rx cadence : R) (use_tauprior : pyval) (set_verbose : bool)
  : Py node :=
  if use_tauprior ==s "CSK" then
    ret (Stochastic "tau" (tau_logp cadence) (np_sqrt (rx * cadence)))
  else if use_tauprior ==s "Vague" then
    ret (Gamma "tau" 0.001 0.001 (np_sqrt (rx * cadence)))
  else if use_tauprior ==s "IG" then
    ret (InverseGamma "tau" 2.0 (np_sqrt (rx * cadence)) (np_sqrt (rx * cadence)))
  else if use_tauprior ==s "None" then
    ret (Uninformative "tau" (np_sqrt (rx * cadence)))
  else
    fixed_prior "tau" use_tauprior set_verbose.

(** Lines 103-112: the name [nu] in [make_model_powexp]. *)
Definition nu_prior_powexp (use_nuprior : pyval) (set_verbose : bool) : Py node :=
  if use_nuprior ==s "Uniform" then
    ret (Uniform "nu" 0 2 1.0)
  else
    fixed_prior "nu" use_nuprior set_verbose.

(** [PRH(zydata, covfunc=..., sigma=..., tau=..., nu=...)] *)
Definition PRH_new (zydata : zyLC) (covfunc : pystr) (sigma tau nu : R) : Py PRH :=
  fun w =>
    let p := mk_PRH zydata covfunc sigma tau nu in
    (Ok p, {| zydata_obj := zydata_obj w;
              stdout := stdout w;
              prh_calls := prh_calls w ++ [PRH_init p] |}).

(** [prh.loglike_prh()] *)
Definition call_loglike_prh (p : PRH) : Py (R * list R) :=
  fun w =>
    (Ok (loglike_prh p), {| zydata_obj := zydata_obj w;
                            stdout := stdout w;
                            prh_calls := prh_calls w ++ [PRH_loglike_prh p] |}).

(** Lines 119-125: the body of the observed node of [make_model_powexp].
    [zydata] is the builder's own name, a reference to the dataset object. *)
Definition model_powexp (value : list R) (sigma tau nu : R) : Py R :=
  let par := [sigma; tau; nu] in
  zydata <- getattr (fun z => z) ;;
  prh <- PRH_new zydata (lit "pow_exp") (nth 0 par 0) (nth 1 par 0) (nth 2 par 0) ;;
  out <- call_loglike_prh prh ;;
  ret (fst out).

(** Lines 276-280: the body of the observed node of [make_model_cov3par];
    [covfunc] is the builder's own argument. *)
Definition model_cov3par (covfunc : pystr) (value : list R) (sigma tau nu : R) : Py R :=
  let par := [sigma; tau; nu] in
  zydata <- getattr (fun z => z) ;;
  prh <- PRH_new zydata covfunc (nth 0 par 0) (nth 1 par 0) (nth 2 par 0) ;;
  out <- call_loglike_prh prh ;;
  ret (fst out).

(** Lines 5-127. *)
Definition make_model_powexp
  (use_sigprior use_tauprior use_nuprior : pyval) (set_verbose : bool)
  : Py powexp_locals :=
  stat <- light_curve_stat ;;
  let '(cadence, rx, ry) := stat in
  sig <- sigma_prior ry use_sigprior set_verbose ;;
  tau <- tau_prior rx cadence use_tauprior set_verbose ;;
  nu <- nu_prior_powexp use_nuprior set_verbose ;;
  let guess := [np_sqrt (rx * cadence); ry / 4.0; 1.0] in
  ret {| pe_cadence := cadence; pe_rx := rx; pe_ry := ry;
         pe_invsigsq := fst sig; pe_sigma := snd sig;
         pe_tau := tau; pe_nu := nu;
         pe_guess := guess;
         pe_model_powexp :=
           mk_observed guess (snd sig) tau nu model_powexp |}.

(** Lines 171-178: [nu_init], assigned in one of four branches. *)
Definition nu_init_of (covfunc : pystr) : option R :=
  if py_is covfunc "pow_exp" then Some 1.0
  else if py_is covfunc "matern" then Some 0.5
  else if py_is covfunc "pareto_exp" then Some 1.5
  else if py_is covfunc "kepler_exp" then Some 0.1
  else None.

(** Lines 181-192: [nu_min] and [nu_max], assigned together in one of
    four branches. *)
Definition nu_limits_of (covfunc : pystr) : option (R * R) :=
  if py_is covfunc "pow_exp" then Some (0.0, 1.999)
  else if py_is covfunc "matern" then Some (0.001, 2.000)
  else if py_is covfunc "pareto_exp" then Some (0.001, 2.000)
  else if py_is covfunc "kepler_exp" then Some (0.001, 0.800)
  else None.

(** Lines 168-179: the locals [sigma_init], [tau_init], [nu_init] and the
    value [par_init] has afterwards.  Line 179 reads [nu_init]. *)
Definition init_values (rx cadence ry : R) (covfunc : pystr) (par_init : option (list R))
  : Py (option R * option R * option R * list R) :=
  match par_init with
  | None =>
      let sigma_init := ry / 4.0 in
      let tau_init := np_sqrt (rx * cadence) in
      let nu_init := nu_init_of covfunc in
      nu_init_v <- local "nu_init" nu_init ;;
      ret (Some sigma_init, Some tau_init, nu_init, [sigma_init; tau_init; nu_init_v])
  | Some given => ret (None, None, None, given)
  end.

(** Lines 260-269: the name [nu] in [make_model_cov3par].  Line 262 reads
    [nu_min], [nu_max] and [nu_init], in this order. *)
Definition nu_prior_cov3par (nu_limits : option (R * R)) (nu_init : option R)
  (use_nuprior : pyval) (set_verbose : bool) : Py node :=
  if use_nuprior ==s "Uniform" then
    nu_min <- local "nu_min" (option_map fst nu_limits) ;;
    nu_max <- local "nu_max" (option_map snd nu_limits) ;;
    nu_init_v <- local "nu_init" nu_init ;;
    ret (Uniform "nu" nu_min nu_max nu_init_v)
  else
    fixed_prior "nu" use_nuprior set_verbose.

(** Lines 130-282. *)
Definition make_model_cov3par
  (covfunc : pystr) (use_sigprior use_tauprior use_nuprior : pyval)
  (par_init : option (list R)) (set_verbose : bool)
  : Py cov3par_locals :=
  stat <- light_curve_stat ;;
  let '(cadence, rx, ry) := stat in
  inits <- init_values rx cadence ry covfunc par_init ;;
  let '(sigma_init, tau_init, nu_init, par_init) := inits in
  let nu_limits := nu_limits_of covfunc in
  sig <- sigma_prior ry use_sigprior set_verbose ;;
  tau <- tau_prior rx cadence use_tauprior set_verbose ;;
  nu <- nu_prior_cov3par nu_limits nu_init use_nuprior set_verbose ;;
  let guess := par_init in
  ret {| c3_cadence := cadence; c3_rx := rx; c3_ry := ry;
         c3_sigma_init := sigma_init; c3_tau_init := tau_init;
         c3_nu_init := nu_init; c3_par_init := par_init;
         c3_nu_limits := nu_limits;
         c3_invsigsq := fst sig; c3_sigma := snd sig;
         c3_tau := tau; c3_nu := nu;
         c3_guess := guess;
         c3_model_cov3par :=
           mk_observed guess (snd sig) tau nu (model_cov3par covfunc) |}.

End Builders.

Arguments py_float float_of_str v : assert.
Arguments py_str fmt_s v : assert.

(* ------------------------------------------------------------------ *)
(** ** Vocabulary of the statements *)

(** The largest and the smallest entry of an array. *)
Definition is_max (m : R) (a : list R) : Prop :=
  In m a /\ forall y, In y a -> y <= m.

Definition is_min (m : R) (a : list R) : Prop :=
  In m a /\ forall y, In y a -> m <= y.

(** [ry] is the largest entry of the array minus the smallest. *)
Definition is_range (ry : R) (a : list R) : Prop :=
  exists ymax ymin, is_max ymax a /\ is_min ymin a /\ ry = ymax - ymin.

(** The prior names each dispatch knows. *)
Definition sigma_names : list string := ["CSK"; "Vague"; "Gamma"; "None"].
Definition tau_names : list string := ["CSK"; "Vague"; "IG"; "None"].
Definition nu_names : list string := ["Uniform"].

(** [v] is one of the strings [names]. *)
Definition named (names : list string) (v : pyval) : bool :=
  existsb (py_eq v) names.

(** [v] is neither one of [names] nor convertible by [float()]. *)
Definition unusable (float_of_str : string -> option R)
  (names : list string) (v : pyval) : Prop :=
  named names v = false /\ py_float float_of_str v = None.

(** [v] is one of [names] or convertible by [float()]. *)
Definition usable (float_of_str : string -> option R)
  (names : list string) (v : pyval) : Prop :=
  named names v = true \/ py_float float_of_str v <> None.

(** [float()] takes none of the prior names for a number. *)
Definition rejects_names (float_of_str : string -> option R) : Prop :=
  forall s, In s (sigma_names ++ tau_names ++ nu_names) -> float_of_str s = None.

(** The run ended in a [RuntimeError]. *)
Definition raises_RuntimeError {A} (r : result A * world) : Prop :=
  exists msg w', r = (Raise (RuntimeError msg), w').

(** The run ended without an exception. *)
Definition returns {A} (r : result A * world) : Prop :=
  exists a w', r = (Ok a, w').

(** [covfunc] is the object of one of the four literals of lines 171-192. *)
Definition known_covfunc (covfunc : pystr) : bool :=
  py_is covfunc "pow_exp" || py_is covfunc "matern"
  || py_is covfunc "pareto_exp" || py_is covfunc "kepler_exp".

(** The range [ry] the builders compute on a non-empty array. *)
Definition range_of (a : list R) : R :=
  match a with
  | [] => 0
  | x :: a' => fold_left Rmax a' x - fold_left Rmin a' x
  end.

(** A computation that leaves the dataset object as it found it and makes
    no call to the likelihood engine. *)
Definition frame {A} (c : Py A) : Prop :=
  forall w, zydata_obj (snd (c w)) = zydata_obj w
            /\ prh_calls (snd (c w)) = prh_calls w.

(** The world after one construction of the engine followed by one call of
    its [loglike_prh()]. *)
Definition after_loglike (w : world) (p : PRH) : world :=
  {| zydata_obj := zydata_obj w;
     stdout := stdout w;
     prh_calls := prh_calls w ++ [PRH_init p; PRH_loglike_prh p] |}.

(** The initial value of [invsigsq]: [1./(ry/4.0)**2.] *)
Definition invsigsq_init (ry : R) : R := 1.0 / (ry / 4.0) ^ 2.

(** The world after [print(line)]. *)
Definition printed (w : world) (line : string) : world :=
  {| zydata_obj := zydata_obj w;
     stdout := stdout w ++ [line];
     prh_calls := prh_calls w |}.

(** The value a declared node has before any sampling: the initial value
    it was declared with, the number itself for a plain float, and for a
    deterministic its function at the value of its parent. *)
Fixpoint value_of (n : node) : R :=
  match n with
  | Stochastic _ _ v => v
  | Gamma _ _ _ v => v
  | InverseGamma _ _ _ v => v
  | Uninformative _ v => v
  | Uniform _ _ _ v => v
  | Deterministic _ eval parent => eval (value_of parent)
  | Fixed x => x
  end.

(** Every entry of the array is the same number. *)
Definition constant_array (a : list R) : Prop :=
  forall x y, In x a -> In y a -> x = y.

(** What line 262 and lines 264-269 need of [use_nuprior]: under "Uniform"
    the three locals [nu_min], [nu_max], [nu_init], which only a known
    [covfunc] together with [par_init is None] assigns; otherwise a value
    [float()] converts. *)
Definition nu_accepted (float_of_str : string -> option R)
  (covfunc : pystr) (par_init : option (list R)) (use_nuprior : pyval) : Prop :=
  if use_nuprior ==s "Uniform"
  then known_covfunc covfunc = true /\ par_init = None
  else py_float float_of_str use_nuprior <> None.

(** The run ended in this exception, in this world. *)
Definition raises_in {A} (r : result A * world) (e : exn) (w : world) : Prop :=
  r = (Raise e, w).

(** The four covariance-function names, each with the initial value and
    the truncation limits of nu that go with it. *)
Definition covfunc_table : list (string * (R * (R * R))) :=
  [ ("pow_exp", (1.0, (0.0, 1.999)));
    ("matern", (0.5, (0.001, 2.000)));
    ("pareto_exp", (1.5, (0.001, 2.000)));
    ("kepler_exp", (0.1, (0.001, 0.800))) ].

(** A small dataset, a [float()] that reads the one numeral "2.5", and a
    likelihood engine, to run the builders on. *)
Module Sample.

Definition zydata : zyLC :=
  {| cont_cad := 1; rj := 100; marr := [1; 3; 2] |}.

Definition world0 : world :=
  {| zydata_obj := zydata; stdout := []; prh_calls := [] |}.

Definition float_of_str (s : string) : option R :=
  if String.eqb s "2.5" then Some 2.5 else None.

Definition fmt (x : R) : string := "<float>".

Definition loglike_prh (p : PRH) : R * list R :=
  (- (prh_sigma p + prh_tau p + prh_nu p), [prh_sigma p]).

(** The builders with this [float()], formatting and engine. *)
Definition powexp := make_model_powexp float_of_str fmt fmt loglike_prh.
Definition cov3par := make_model_cov3par float_of_str fmt fmt loglike_prh.

(** The same world with a dataset that holds no magnitude. *)
Definition empty_world : world :=
  {| zydata_obj := {| cont_cad := 1; rj := 100; marr := [] |};
     stdout := []; prh_calls := [] |}.

(** A [str] with the characters of "matern" that is not the object of a
    literal, as one read from a file or put together at run time. *)
Definition matern_copy : pystr := {| chars := "matern"; interned := false |}.

End Sample.

(* ------------------------------------------------------------------ *)
(** ** Comparisons *)

(** The float literals of the source that denote integers. *)
Lemma lit_0 : 0.0 = 0.
Proof. lra. Qed.

Lemma lit_1 : 1.0 = 1.
Proof. lra. Qed.

Lemma lit_2 : 2.0 = 2.
Proof. lra. Qed.

Lemma lit_4 : 4.0 = 4.
Proof. lra. Qed.

Lemma invsigsq_init_eq (ry : R) : invsigsq_init ry = 1 / (ry / 4) ^ 2.
Proof. unfold invsigsq_init. rewrite lit_1, lit_4. reflexivity. Qed.

Lemma Rltb_true (x y : R) : x < y -> (x <? y) = true.
Proof. intro H. unfold Rltb. destruct (Rlt_dec x y); [reflexivity | contradiction]. Qed.

Lemma Rltb_false (x y : R) : ~ x < y -> (x <? y) = false.
Proof. intro H. unfold Rltb. destruct (Rlt_dec x y); [contradiction | reflexivity]. Qed.

Lemma Rleb_true (x y : R) : x <= y -> (x <=? y) = true.
Proof. intro H. unfold Rleb. destruct (Rle_dec x y); [reflexivity | contradiction]. Qed.

Lemma Rleb_false (x y : R) : ~ x <= y -> (x <=? y) = false.
Proof. intro H. unfold Rleb. destruct (Rle_dec x y); [contradiction | reflexivity]. Qed.

Lemma Rltb_spec (x y : R) : (x <? y) = true <-> x < y.
Proof.
  unfold Rltb. destruct (Rlt_dec x y); split; intro H; auto; discriminate.
Qed.

Lemma Rleb_spec (x y : R) : (x <=? y) = true <-> x <= y.
Proof.
  unfold Rleb. destruct (Rle_dec x y); split; intro H; auto; discriminate.
Qed.

(** Settles every comparison of the goal whose outcome [lra] can decide. *)
Ltac decide_cmp :=
  repeat match goal with
  | |- context [Rltb ?x ?y] =>
      first [ rewrite (Rltb_true x y) by lra | rewrite (Rltb_false x y) by lra ]
  | |- context [Rleb ?x ?y] =>
      first [ rewrite (Rleb_true x y) by lra | rewrite (Rleb_false x y) by lra ]
  end.

(* ------------------------------------------------------------------ *)
(** ** The array reductions *)

Lemma fold_left_Rmax_is_max (a : list R) (x : R) :
  is_max (fold_left Rmax a x) (x :: a).
Proof.
  revert x. induction a as [| y a IH]; intro x; simpl.
  - split; [now left |]. intros z [<- | []]. lra.
  - destruct (IH (Rmax x y)) as [Hin Hub]. split.
    + destruct Hin as [Heq | Hin].
      * rewrite <- Heq. unfold Rmax.
        destruct (Rle_dec x y); [right; left | left]; reflexivity.
      * right; right; exact Hin.
    + intros z Hz. assert (Hxy : x <= Rmax x y /\ y <= Rmax x y).
      { split; [apply Rmax_l | apply Rmax_r]. }
      destruct Hz as [<- | [<- | Hz]].
      * apply Rle_trans with (Rmax x y); [tauto | apply Hub; now left].
      * apply Rle_trans with (Rmax x y); [tauto | apply Hub; now left].
      * apply Hub. now right.
Qed.

Lemma fold_left_Rmin_is_min (a : list R) (x : R) :
  is_min (fold_left Rmin a x) (x :: a).
Proof.
  revert x. induction a as [| y a IH]; intro x; simpl.
  - split; [now left |]. intros z [<- | []]. lra.
  - destruct (IH (Rmin x y)) as [Hin Hlb]. split.
    + destruct Hin as [Heq | Hin].
      * rewrite <- Heq. unfold Rmin.
        destruct (Rle_dec x y); [left | right; left]; reflexivity.
      * right; right; exact Hin.
    + intros z Hz. assert (Hxy : Rmin x y <= x /\ Rmin x y <= y).
      { split; [apply Rmin_l | apply Rmin_r]. }
      destruct Hz as [<- | [<- | Hz]].
      * apply Rle_trans with (Rmin x y); [apply Hlb; now left | tauto].
      * apply Rle_trans with (Rmin x y); [apply Hlb; now left | tauto].
      * apply Hlb. now right.
Qed.

Lemma range_of_spec (a : list R) : a <> [] -> is_range (range_of a) a.
Proof.
  destruct a as [| x a]; [congruence |]. intros _.
  exists (fold_left Rmax a x), (fold_left Rmin a x).
  auto using fold_left_Rmax_is_max, fold_left_Rmin_is_min.
Qed.

(* ------------------------------------------------------------------ *)
(** ** Runs of the monad *)

Create HintDb frame.

Lemma frame_ret {A} (a : A) : frame (ret a).
Proof. intro w. split; reflexivity. Qed.

Lemma frame_raise {A} (e : exn) : frame (@raise A e).
Proof. intro w. split; reflexivity. Qed.

Lemma frame_bind {A B} (c : Py A) (k : A -> Py B) :
  frame c -> (forall a, frame (k a)) -> frame (bind c k).
Proof.
  intros Hc Hk w. unfold bind. specialize (Hc w).
  destruct (c w) as [[a | e] w1]; simpl in Hc.
  - destruct (Hk a w1) as [H1 H2]. rewrite H1, H2. exact Hc.
  - exact Hc.
Qed.

Lemma frame_getattr {A} (attr : zyLC -> A) : frame (getattr attr).
Proof. intro w. split; reflexivity. Qed.

Lemma frame_print (line : string) : frame (print line).
Proof. intro w. split; reflexivity. Qed.

Lemma frame_local {A} (name : string) (v : option A) : frame (local name v).
Proof. destruct v; [apply frame_ret | apply frame_raise]. Qed.

Lemma frame_arr_max (a : list R) : frame (arr_max a).
Proof. destruct a; [apply frame_raise | apply frame_ret]. Qed.

Lemma frame_arr_min (a : list R) : frame (arr_min a).
Proof. destruct a; [apply frame_raise | apply frame_ret]. Qed.

#[local] Hint Resolve frame_ret frame_raise frame_getattr frame_print
  frame_local frame_arr_max frame_arr_min : frame.

Lemma bind_Ok {A B} (c : Py A) (k : A -> Py B) (w w1 : world) (a : A) :
  c w = (Ok a, w1) -> bind c k w = k a w1.
Proof. intro H. unfold bind. rewrite H. reflexivity. Qed.

Lemma bind_Raise {A B} (c : Py A) (k : A -> Py B) (w w1 : world) (e : exn) :
  c w = (Raise e, w1) -> bind c k w = (Raise e, w1).
Proof. intro H. unfold bind. rewrite H. reflexivity. Qed.

Lemma bind_Ok_inv {A B} (c : Py A) (k : A -> Py B) (w w2 : world) (b : B) :
  bind c k w = (Ok b, w2) ->
  exists a w1, c w = (Ok a, w1) /\ k a w1 = (Ok b, w2).
Proof.
  unfold bind. destruct (c w) as [[a | e] w1]; intro H.
  - exists a, w1. auto.
  - discriminate.
Qed.

Lemma bind_raises_l {A B} (c : Py A) (k : A -> Py B) (w : world) :
  raises_RuntimeError (c w) -> raises_RuntimeError (bind c k w).
Proof.
  intros (msg & w1 & H). exists msg, w1. now apply bind_Raise.
Qed.

Lemma bind_raises_r {A B} (c : Py A) (k : A -> Py B) (w : world) :
  returns (c w) \/ raises_RuntimeError (c w) ->
  (forall a w1, raises_RuntimeError (k a w1)) ->
  raises_RuntimeError (bind c k w).
Proof.
  intros [(a & w1 & H) | H] Hk.
  - rewrite (bind_Ok _ _ _ _ _ H). apply Hk.
  - now apply bind_raises_l.
Qed.

Lemma bind_returns {A B} (c : Py A) (k : A -> Py B) (w : world) :
  returns (c w) -> (forall a w1, returns (k a w1)) -> returns (bind c k w).
Proof.
  intros (a & w1 & H) Hk. rewrite (bind_Ok _ _ _ _ _ H). apply Hk.
Qed.

Lemma returns_ret {A} (a : A) (w : world) : returns (ret a w).
Proof. exists a, w. reflexivity. Qed.

(* ------------------------------------------------------------------ *)
(** ** The stages of the builders *)

Lemma light_curve_stat_run (w : world) :
  marr (zydata_obj w) <> [] ->
  light_curve_stat w
  = (Ok (cont_cad (zydata_obj w), rj (zydata_obj w), range_of (marr (zydata_obj w))), w).
Proof.
  intro Hne. destruct (marr (zydata_obj w)) as [| x a] eqn:E; [congruence |].
  unfold light_curve_stat, bind, getattr. simpl. rewrite E. simpl. rewrite E.
  reflexivity.
Qed.

Lemma light_curve_stat_empty (w : world) :
  marr (zydata_obj w) = [] ->
  exists msg, light_curve_stat w = (Raise (ValueError msg), w).
Proof.
  intro He. unfold light_curve_stat, bind, getattr. simpl. rewrite He.
  eexists. reflexivity.
Qed.

Lemma light_curve_stat_Ok (w w1 : world) (stat : R * R * R) :
  light_curve_stat w = (Ok stat, w1) ->
  marr (zydata_obj w) <> [] /\ w1 = w
  /\ stat = (cont_cad (zydata_obj w), rj (zydata_obj w), range_of (marr (zydata_obj w))).
Proof.
  intro H. destruct (marr (zydata_obj w)) as [| x a] eqn:E.
  - destruct (light_curve_stat_empty w E) as [msg Hm]. congruence.
  - assert (Hne : marr (zydata_obj w) <> []) by congruence.
    rewrite (light_curve_stat_run w Hne), E in H. inversion H. subst.
    repeat split. congruence.
Qed.

Lemma frame_light_curve_stat : frame light_curve_stat.
Proof.
  unfold light_curve_stat.
  repeat (apply frame_bind; [auto with frame | intro]). auto with frame.
Qed.

Lemma named_false_cons (v : pyval) (s : string) (names : list string) :
  named (s :: names) v = false -> (v ==s s) = false /\ named names v = false.
Proof. unfold named. simpl. apply orb_false_elim. Qed.

Section Stages.

Variable float_of_str : string -> option R.
Variables fmt_3f fmt_s : R -> string.
Variable loglike_prh : PRH -> R * list R.

Lemma fixed_prior_Some (par : string) (v : pyval) (verbose : bool) (x : R) (w : world) :
  py_float float_of_str v = Some x ->
  exists w', fixed_prior float_of_str fmt_3f fmt_s par v verbose w = (Ok (Fixed x), w')
             /\ zydata_obj w' = zydata_obj w.
Proof.
  intro H. unfold fixed_prior. rewrite H. destruct verbose; eexists; split; reflexivity.
Qed.

Lemma fixed_prior_None (par : string) (v : pyval) (verbose : bool) (w : world) :
  py_float float_of_str v = None ->
  fixed_prior float_of_str fmt_3f fmt_s par v verbose w
  = (Raise (RuntimeError ("no such prior for " ++ par ++ " " ++ py_str fmt_s v)), w).
Proof. intro H. unfold fixed_prior. rewrite H. reflexivity. Qed.

Lemma fixed_prior_outcome (par : string) (v : pyval) (verbose : bool) (w : world) :
  returns (fixed_prior float_of_str fmt_3f fmt_s par v verbose w)
  \/ raises_RuntimeError (fixed_prior float_of_str fmt_3f fmt_s par v verbose w).
Proof.
  destruct (py_float float_of_str v) as [x |] eqn:E.
  - left. destruct (fixed_prior_Some par v verbose x w E) as (w' & H & _).
    exists (Fixed x), w'. exact H.
  - right. rewrite (fixed_prior_None par v verbose w E). eexists. eexists. reflexivity.
Qed.

Lemma frame_fixed_prior (par : string) (v : pyval) (verbose : bool) :
  frame (fixed_prior float_of_str fmt_3f fmt_s par v verbose).
Proof.
  unfold fixed_prior. destruct (py_float float_of_str v); [| auto with frame].
  apply frame_bind; [destruct verbose |]; auto with frame.
Qed.

(** *** sigma *)

Lemma sigma_prior_unnamed (ry : R) (v : pyval) (verbose : bool) :
  named sigma_names v = false ->
  sigma_prior float_of_str fmt_3f fmt_s ry v verbose
  = (sigma <- fixed_prior float_of_str fmt_3f fmt_s "sigma" v verbose ;; ret (None, sigma)).
Proof.
  intro H. unfold sigma_names in H.
  repeat (apply named_false_cons in H; destruct H as [? H]).
  unfold sigma_prior.
  repeat match goal with E : (v ==s _) = false |- _ => rewrite E; clear E end.
  reflexivity.
Qed.

Lemma sigma_prior_outcome (ry : R) (v : pyval) (verbose : bool) (w : world) :
  returns (sigma_prior float_of_str fmt_3f fmt_s ry v verbose w)
  \/ raises_RuntimeError (sigma_prior float_of_str fmt_3f fmt_s ry v verbose w).
Proof.
  unfold sigma_prior.
  repeat match goal with
         | |- context [if ?b then _ else _] => destruct b; [left; apply returns_ret |]
         end.
  destruct (fixed_prior_outcome "sigma" v verbose w) as [H | H].
  - left. apply bind_returns; [exact H | intros; apply returns_ret].
  - right. now apply bind_raises_l.
Qed.

Lemma sigma_prior_unusable (ry : R) (v : pyval) (verbose : bool) (w : world) :
  unusable float_of_str sigma_names v ->
  raises_RuntimeError (sigma_prior float_of_str fmt_3f fmt_s ry v verbose w).
Proof.
  intros [Hn Hf]. rewrite (sigma_prior_unnamed ry v verbose Hn).
  apply bind_raises_l. rewrite (fixed_prior_None "sigma" v verbose w Hf).
  eexists. eexists. reflexivity.
Qed.

Lemma sigma_prior_float (ry : R) (v : pyval) (verbose : bool) (x : R) (w : world) :
  named sigma_names v = false ->
  py_float float_of_str v = Some x ->
  exists w', sigma_prior float_of_str fmt_3f fmt_s ry v verbose w = (Ok (None, Fixed x), w').
Proof.
  intros Hn Hf. rewrite (sigma_prior_unnamed ry v verbose Hn).
  destruct (fixed_prior_Some "sigma" v verbose x w Hf) as (w' & H & _).
  exists w'. rewrite (bind_Ok _ _ _ _ _ H). reflexivity.
Qed.

Lemma frame_sigma_prior (ry : R) (v : pyval) (verbose : bool) :
  frame (sigma_prior float_of_str fmt_3f fmt_s ry v verbose).
Proof.
  unfold sigma_prior.
  repeat match goal with
         | |- context [if ?b then _ else _] => destruct b; [auto with frame |]
         end.
  apply frame_bind; [apply frame_fixed_prior | auto with frame].
Qed.

(** *** tau *)

Lemma tau_prior_unnamed (rx cadence : R) (v : pyval) (verbose : bool) :
  named tau_names v = false ->
  tau_prior float_of_str fmt_3f fmt_s rx cadence v verbose
  = fixed_prior float_of_str fmt_3f fmt_s "tau" v verbose.
Proof.
  intro H. unfold tau_names in H.
  repeat (apply named_false_cons in H; destruct H as [? H]).
  unfold tau_prior.
  repeat match goal with E : (v ==s _) = false |- _ => rewrite E; clear E end.
  reflexivity.
Qed.

Lemma tau_prior_outcome (rx cadence : R) (v : pyval) (verbose : bool) (w : world) :
  returns (tau_prior float_of_str fmt_3f fmt_s rx cadence v verbose w)
  \/ raises_RuntimeError (tau_prior float_of_str fmt_3f fmt_s rx cadence v verbose w).
Proof.
  unfold tau_prior.
  repeat match goal with
         | |- context [if ?b then _ else _] => destruct b; [left; apply returns_ret |]
         end.
  apply fixed_prior_outcome.
Qed.

Lemma tau_prior_unusable (rx cadence : R) (v : pyval) (verbose : bool) (w : world) :
  unusable float_of_str tau_names v ->
  raises_RuntimeError (tau_prior float_of_str fmt_3f fmt_s rx cadence v verbose w).
Proof.
  intros [Hn Hf]. rewrite (tau_prior_unnamed rx cadence v verbose Hn).
  rewrite (fixed_prior_None "tau" v verbose w Hf). eexists. eexists. reflexivity.
Qed.

Lemma tau_prior_float (rx cadence : R) (v : pyval) (verbose : bool) (x : R) (w : world) :
  named tau_names v = false ->
  py_float float_of_str v = Some x ->
  exists w', tau_prior float_of_str fmt_3f fmt_s rx cadence v verbose w = (Ok (Fixed x), w').
Proof.
  intros Hn Hf. rewrite (tau_prior_unnamed rx cadence v verbose Hn).
  destruct (fixed_prior_Some "tau" v verbose x w Hf) as (w' & H & _). eauto.
Qed.

Lemma frame_tau_prior (rx cadence : R) (v : pyval) (verbose : bool) :
  frame (tau_prior float_of_str fmt_3f fmt_s rx cadence v verbose).
Proof.
  unfold tau_prior.
  repeat match goal with
         | |- context [if ?b then _ else _] => destruct b; [auto with frame |]
         end.
  apply frame_fixed_prior.
Qed.

(** *** nu *)

Lemma nu_prior_powexp_unnamed (v : pyval) (verbose : bool) :
  named nu_names v = false ->
  nu_prior_powexp float_of_str fmt_3f fmt_s v verbose
  = fixed_prior float_of_str fmt_3f fmt_s "nu" v verbose.
Proof.
  intro H. unfold nu_names in H. apply named_false_cons in H. destruct H as [E _].
  unfold nu_prior_powexp. rewrite E. reflexivity.
Qed.

Lemma nu_prior_powexp_outcome (v : pyval) (verbose : bool) (w : world) :
  returns (nu_prior_powexp float_of_str fmt_3f fmt_s v verbose w)
  \/ raises_RuntimeError (nu_prior_powexp float_of_str fmt_3f fmt_s v verbose w).
Proof.
  unfold nu_prior_powexp. destruct (v ==s "Uniform").
  - left. apply returns_ret.
  - apply fixed_prior_outcome.
Qed.

Lemma nu_prior_powexp_unusable (v : pyval) (verbose : bool) (w : world) :
  unusable float_of_str nu_names v ->
  raises_RuntimeError (nu_prior_powexp float_of_str fmt_3f fmt_s v verbose w).
Proof.
  intros [Hn Hf]. rewrite (nu_prior_powexp_unnamed v verbose Hn).
  rewrite (fixed_prior_None "nu" v verbose w Hf). eexists. eexists. reflexivity.
Qed.

Lemma nu_prior_powexp_float (v : pyval) (verbose : bool) (x : R) (w : world) :
  named nu_names v = false ->
  py_float float_of_str v = Some x ->
  exists w', nu_prior_powexp float_of_str fmt_3f fmt_s v verbose w = (Ok (Fixed x), w').
Proof.
  intros Hn Hf. rewrite (nu_prior_powexp_unnamed v verbose Hn).
  destruct (fixed_prior_Some "nu" v verbose x w Hf) as (w' & H & _). eauto.
Qed.

Lemma frame_nu_prior_powexp (v : pyval) (verbose : bool) :
  frame (nu_prior_powexp float_of_str fmt_3f fmt_s v verbose).
Proof.
  unfold nu_prior_powexp. destruct (v ==s "Uniform"); [auto with frame |].
  apply frame_fixed_prior.
Qed.

Lemma nu_prior_cov3par_unnamed (lim : option (R * R)) (init : option R)
  (v : pyval) (verbose : bool) :
  named nu_names v = false ->
  nu_prior_cov3par float_of_str fmt_3f fmt_s lim init v verbose
  = fixed_prior float_of_str fmt_3f fmt_s "nu" v verbose.
Proof.
  intro H. unfold nu_names in H. apply named_false_cons in H. destruct H as [E _].
  unfold nu_prior_cov3par. rewrite E. reflexivity.
Qed.

Lemma nu_prior_cov3par_unusable (lim : option (R * R)) (init : option R)
  (v : pyval) (verbose : bool) (w : world) :
  unusable float_of_str nu_names v ->
  raises_RuntimeError (nu_prior_cov3par float_of_str fmt_3f fmt_s lim init v verbose w).
Proof.
  intros [Hn Hf]. rewrite (nu_prior_cov3par_unnamed lim init v verbose Hn).
  rewrite (fixed_prior_None "nu" v verbose w Hf). eexists. eexists. reflexivity.
Qed.

Lemma nu_prior_cov3par_float (lim : option (R * R)) (init : option R)
  (v : pyval) (verbose : bool) (x : R) (w : world) :
  named nu_names v = false ->
  py_float float_of_str v = Some x ->
  exists w', nu_prior_cov3par float_of_str fmt_3f fmt_s lim init v verbose w
             = (Ok (Fixed x), w').
Proof.
  intros Hn Hf. rewrite (nu_prior_cov3par_unnamed lim init v verbose Hn).
  destruct (fixed_prior_Some "nu" v verbose x w Hf) as (w' & H & _). eauto.
Qed.

Lemma nu_prior_cov3par_Uniform (lo hi init : R) (verbose : bool) (w : world) :
  nu_prior_cov3par float_of_str fmt_3f fmt_s (Some (lo, hi)) (Some init)
    (PyStr "Uniform") verbose w
  = (Ok (Uniform "nu" lo hi init), w).
Proof. reflexivity. Qed.

Lemma frame_nu_prior_cov3par (lim : option (R * R)) (init : option R)
  (v : pyval) (verbose : bool) :
  frame (nu_prior_cov3par float_of_str fmt_3f fmt_s lim init v verbose).
Proof.
  unfold nu_prior_cov3par. destruct (v ==s "Uniform").
  - repeat (apply frame_bind; [auto with frame | intro]). auto with frame.
  - apply frame_fixed_prior.
Qed.

(** *** The covfunc-dependent initial values *)

Lemma init_values_given (rx cadence ry : R) (covfunc : pystr) (given : list R) (w : world) :
  init_values rx cadence ry covfunc (Some given) w = (Ok (None, None, None, given), w).
Proof. reflexivity. Qed.

Lemma init_values_known (rx cadence ry : R) (covfunc : pystr) (nu0 : R) (w : world) :
  nu_init_of covfunc = Some nu0 ->
  init_values rx cadence ry covfunc None w
  = (Ok (Some (ry / 4.0), Some (np_sqrt (rx * cadence)), Some nu0,
         [ry / 4.0; np_sqrt (rx * cadence); nu0]), w).
Proof. intro H. unfold init_values. rewrite H. reflexivity. Qed.

Lemma init_values_unknown (rx cadence ry : R) (covfunc : pystr) (w : world) :
  nu_init_of covfunc = None ->
  init_values rx cadence ry covfunc None w = (Raise (UnboundLocalError "nu_init"), w).
Proof. intro H. unfold init_values. rewrite H. reflexivity. Qed.

Lemma frame_init_values (rx cadence ry : R) (covfunc : pystr) (par_init : option (list R)) :
  frame (init_values rx cadence ry covfunc par_init).
Proof.
  unfold init_values. destruct par_init; [auto with frame |].
  apply frame_bind; auto with frame.
Qed.

Lemma nu_init_of_known (covfunc : pystr) :
  known_covfunc covfunc = true <-> nu_init_of covfunc <> None.
Proof.
  unfold known_covfunc, nu_init_of.
  destruct (py_is covfunc "pow_exp"), (py_is covfunc "matern"),
    (py_is covfunc "pareto_exp"), (py_is covfunc "kepler_exp"); simpl;
    split; intro H; congruence.
Qed.

Lemma nu_limits_of_known (covfunc : pystr) :
  known_covfunc covfunc = true <-> nu_limits_of covfunc <> None.
Proof.
  unfold known_covfunc, nu_limits_of.
  destruct (py_is covfunc "pow_exp"), (py_is covfunc "matern"),
    (py_is covfunc "pareto_exp"), (py_is covfunc "kepler_exp"); simpl;
    split; intro H; congruence.
Qed.

(** An object [is] one of the literals only if it is interned. *)
Lemma known_covfunc_interned (covfunc : pystr) :
  known_covfunc covfunc = true -> interned covfunc = true.
Proof.
  unfold known_covfunc, py_is. destruct (interned covfunc); simpl; congruence.
Qed.

(** *** make_model_powexp as the sequence of its stages *)

Lemma make_model_powexp_run (sp tp np : pyval) (verbose : bool) (w : world) :
  marr (zydata_obj w) <> [] ->
  let cadence := cont_cad (zydata_obj w) in
  let rx := rj (zydata_obj w) in
  let ry := range_of (marr (zydata_obj w)) in
  let guess := [np_sqrt (rx * cadence); ry / 4.0; 1.0] in
  make_model_powexp float_of_str fmt_3f fmt_s loglike_prh sp tp np verbose w
  = (sig <- sigma_prior float_of_str fmt_3f fmt_s ry sp verbose ;;
     tau <- tau_prior float_of_str fmt_3f fmt_s rx cadence tp verbose ;;
     nu <- nu_prior_powexp float_of_str fmt_3f fmt_s np verbose ;;
     ret (mk_powexp_locals cadence rx ry (fst sig) (snd sig) tau nu guess
            (mk_observed guess (snd sig) tau nu (model_powexp loglike_prh)))) w.
Proof.
  intros Hne cadence rx ry guess. unfold make_model_powexp.
  rewrite (bind_Ok _ _ _ _ _ (light_curve_stat_run w Hne)). reflexivity.
Qed.

Lemma make_model_powexp_Ok (sp tp np : pyval) (verbose : bool) (w w' : world)
  (m : powexp_locals) :
  make_model_powexp float_of_str fmt_3f fmt_s loglike_prh sp tp np verbose w = (Ok m, w') ->
  let cadence := cont_cad (zydata_obj w) in
  let rx := rj (zydata_obj w) in
  let ry := range_of (marr (zydata_obj w)) in
  let guess := [np_sqrt (rx * cadence); ry / 4.0; 1.0] in
  marr (zydata_obj w) <> [] /\
  exists sig w1 tau w2 nu,
    sigma_prior float_of_str fmt_3f fmt_s ry sp verbose w = (Ok sig, w1)
    /\ tau_prior float_of_str fmt_3f fmt_s rx cadence tp verbose w1 = (Ok tau, w2)
    /\ nu_prior_powexp float_of_str fmt_3f fmt_s np verbose w2 = (Ok nu, w')
    /\ m = mk_powexp_locals cadence rx ry (fst sig) (snd sig) tau nu guess
             (mk_observed guess (snd sig) tau nu (model_powexp loglike_prh)).
Proof.
  intros H cadence rx ry guess.
  assert (Hne : marr (zydata_obj w) <> []).
  { unfold make_model_powexp in H. apply bind_Ok_inv in H.
    destruct H as (stat & w0 & Hs & _).
    now apply light_curve_stat_Ok in Hs. }
  split; [exact Hne |].
  rewrite (make_model_powexp_run sp tp np verbose w Hne) in H.
  apply bind_Ok_inv in H. destruct H as (sig & w1 & Hsig & H).
  apply bind_Ok_inv in H. destruct H as (tau & w2 & Htau & H).
  apply bind_Ok_inv in H. destruct H as (nu & w3 & Hnu & H).
  unfold ret in H. inversion H; subst.
  exists sig, w1, tau, w2, nu. auto.
Qed.

Lemma frame_make_model_powexp (sp tp np : pyval) (verbose : bool) :
  frame (make_model_powexp float_of_str fmt_3f fmt_s loglike_prh sp tp np verbose).
Proof.
  unfold make_model_powexp.
  apply frame_bind; [apply frame_light_curve_stat | intros [[cadence rx] ry]].
  apply frame_bind; [apply frame_sigma_prior | intro sig].
  apply frame_bind; [apply frame_tau_prior | intro tau].
  apply frame_bind; [apply frame_nu_prior_powexp | intro nu].
  apply frame_ret.
Qed.

(** *** make_model_cov3par as the sequence of its stages *)

Lemma make_model_cov3par_run (covfunc : pystr) (sp tp np : pyval)
  (par_init : option (list R)) (verbose : bool) (w : world) :
  marr (zydata_obj w) <> [] ->
  let cadence := cont_cad (zydata_obj w) in
  let rx := rj (zydata_obj w) in
  let ry := range_of (marr (zydata_obj w)) in
  make_model_cov3par float_of_str fmt_3f fmt_s loglike_prh
    covfunc sp tp np par_init verbose w
  = (inits <- init_values rx cadence ry covfunc par_init ;;
     sig <- sigma_prior float_of_str fmt_3f fmt_s ry sp verbose ;;
     tau <- tau_prior float_of_str fmt_3f fmt_s rx cadence tp verbose ;;
     nu <- nu_prior_cov3par float_of_str fmt_3f fmt_s
             (nu_limits_of covfunc) (snd (fst inits)) np verbose ;;
     ret (mk_cov3par_locals cadence rx ry
            (fst (fst (fst inits))) (snd (fst (fst inits))) (snd (fst inits))
            (snd inits) (nu_limits_of covfunc) (fst sig) (snd sig) tau nu (snd inits)
            (mk_observed (snd inits) (snd sig) tau nu
               (model_cov3par loglike_prh covfunc)))) w.
Proof.
  intros Hne cadence rx ry. unfold make_model_cov3par.
  rewrite (bind_Ok _ _ _ _ _ (light_curve_stat_run w Hne)).
  unfold bind. destruct (init_values _ _ _ _ _ w) as [[[[[si ti] ni] pi] | e] w1];
    reflexivity.
Qed.

Lemma make_model_cov3par_Ok (covfunc : pystr) (sp tp np : pyval)
  (par_init : option (list R)) (verbose : bool) (w w' : world) (m : cov3par_locals) :
  make_model_cov3par float_of_str fmt_3f fmt_s loglike_prh
    covfunc sp tp np par_init verbose w = (Ok m, w') ->
  let cadence := cont_cad (zydata_obj w) in
  let rx := rj (zydata_obj w) in
  let ry := range_of (marr (zydata_obj w)) in
  marr (zydata_obj w) <> [] /\
  exists inits sig w1 tau w2 nu,
    init_values rx cadence ry covfunc par_init w = (Ok inits, w)
    /\ sigma_prior float_of_str fmt_3f fmt_s ry sp verbose w = (Ok sig, w1)
    /\ tau_prior float_of_str fmt_3f fmt_s rx cadence tp verbose w1 = (Ok tau, w2)
    /\ nu_prior_cov3par float_of_str fmt_3f fmt_s
         (nu_limits_of covfunc) (snd (fst inits)) np verbose w2 = (Ok nu, w')
    /\ m = mk_cov3par_locals cadence rx ry
             (fst (fst (fst inits))) (snd (fst (fst inits))) (snd (fst inits))
             (snd inits) (nu_limits_of covfunc) (fst sig) (snd sig) tau nu (snd inits)
             (mk_observed (snd inits) (snd sig) tau nu
                (model_cov3par loglike_prh covfunc)).
Proof.
  intros H cadence rx ry.
  assert (Hne : marr (zydata_obj w) <> []).
  { unfold make_model_cov3par in H. apply bind_Ok_inv in H.
    destruct H as (stat & w0 & Hs & _).
    now apply light_curve_stat_Ok in Hs. }
  split; [exact Hne |].
  rewrite (make_model_cov3par_run covfunc sp tp np par_init verbose w Hne) in H.
  apply bind_Ok_inv in H. destruct H as (inits & w0 & Hin & H).
  assert (w0 = w).
  { destruct par_init as [given |].
    - rewrite init_values_given in Hin. congruence.
    - destruct (nu_init_of covfunc) as [nu0 |] eqn:E.
      + rewrite (init_values_known _ _ _ _ nu0 w E) in Hin. congruence.
      + rewrite (init_values_unknown _ _ _ _ w E) in Hin. discriminate. }
  subst w0.
  apply bind_Ok_inv in H. destruct H as (sig & w1 & Hsig & H).
  apply bind_Ok_inv in H. destruct H as (tau & w2 & Htau & H).
  apply bind_Ok_inv in H. destruct H as (nu & w3 & Hnu & H).
  unfold ret in H. inversion H; subst.
  exists inits, sig, w1, tau, w2, nu. auto.
Qed.

Lemma frame_make_model_cov3par (covfunc : pystr) (sp tp np : pyval)
  (par_init : option (list R)) (verbose : bool) :
  frame (make_model_cov3par float_of_str fmt_3f fmt_s loglike_prh
           covfunc sp tp np par_init verbose).
Proof.
  unfold make_model_cov3par.
  apply frame_bind; [apply frame_light_curve_stat | intros [[cadence rx] ry]].
  apply frame_bind; [apply frame_init_values | intros [[[si ti] ni] pi]].
  apply frame_bind; [apply frame_sigma_prior | intro sig].
  apply frame_bind; [apply frame_tau_prior | intro tau].
  apply frame_bind; [apply frame_nu_prior_cov3par | intro nu].
  apply frame_ret.
Qed.

(* ------------------------------------------------------------------ *)
(** ** The observed likelihood node *)

Lemma model_cov3par_run (covfunc : pystr) (value : list R) (sigma tau nu : R) (w : world) :
  let p := mk_PRH (zydata_obj w) covfunc sigma tau nu in
  model_cov3par loglike_prh covfunc value sigma tau nu w
  = (Ok (fst (loglike_prh p)), after_loglike w p).
Proof.
  unfold model_cov3par, bind, getattr, PRH_new, call_loglike_prh, ret, after_loglike.
  simpl. rewrite <- app_assoc. reflexivity.
Qed.

Lemma model_powexp_run (value : list R) (sigma tau nu : R) (w : world) :
  let p := mk_PRH (zydata_obj w) (lit "pow_exp") sigma tau nu in
  model_powexp loglike_prh value sigma tau nu w
  = (Ok (fst (loglike_prh p)), after_loglike w p).
Proof.
  unfold model_powexp, bind, getattr, PRH_new, call_loglike_prh, ret, after_loglike.
  simpl. rewrite <- app_assoc. reflexivity.
Qed.

(** C1. Whatever the dataset and the triple (sigma, tau, nu), the observed
    node built by [make_model_powexp] (by [make_model_cov3par]) has the
    three priors of the model as parents, and evaluating its log-probability
    constructs one [PRH] from the dataset, the covariance-function name
    (["pow_exp"], resp. the builder's [covfunc]) and sigma, tau, nu, calls
    [loglike_prh()] on it once and returns the first component of the tuple
    that call returned; the node's own [value] plays no part in the result. *)
Theorem likelihood_node_calls_engine_once :
  (forall sp tp np verbose w m w',
      make_model_powexp float_of_str fmt_3f fmt_s loglike_prh sp tp np verbose w
      = (Ok m, w') ->
      let node := pe_model_powexp m in
      (obs_sigma node, obs_tau node, obs_nu node) = (pe_sigma m, pe_tau m, pe_nu m)
      /\ (forall value sigma tau nu w1,
             let p := mk_PRH (zydata_obj w1) (lit "pow_exp") sigma tau nu in
             obs_logp node value sigma tau nu w1
             = (Ok (fst (loglike_prh p)), after_loglike w1 p))
      /\ (forall value value' sigma tau nu w1,
             obs_logp node value sigma tau nu w1
             = obs_logp node value' sigma tau nu w1))
  /\
  (forall covfunc sp tp np par_init verbose w m w',
      make_model_cov3par float_of_str fmt_3f fmt_s loglike_prh
        covfunc sp tp np par_init verbose w = (Ok m, w') ->
      let node := c3_model_cov3par m in
      (obs_sigma node, obs_tau node, obs_nu node) = (c3_sigma m, c3_tau m, c3_nu m)
      /\ (forall value sigma tau nu w1,
             let p := mk_PRH (zydata_obj w1) covfunc sigma tau nu in
             obs_logp node value sigma tau nu w1
             = (Ok (fst (loglike_prh p)), after_loglike w1 p))
      /\ (forall value value' sigma tau nu w1,
             obs_logp node value sigma tau nu w1
             = obs_logp node value' sigma tau nu w1)).
Proof.
  split.
  - intros sp tp np verbose w m w' H.
    apply make_model_powexp_Ok in H.
    destruct H as (_ & sig & w1 & tau & w2 & nu & _ & _ & _ & ->). simpl.
    split; [reflexivity |]. split.
    + intros. apply model_powexp_run.
    + intros. now rewrite !model_powexp_run.
  - intros covfunc sp tp np par_init verbose w m w' H.
    apply make_model_cov3par_Ok in H.
    destruct H as (_ & inits & sig & w1 & tau & w2 & nu & _ & _ & _ & _ & ->). simpl.
    split; [reflexivity |]. split.
    + intros. apply model_cov3par_run.
    + intros. now rewrite !model_cov3par_run.
Qed.

(* ------------------------------------------------------------------ *)
(** ** The dataset is only read *)

(** C10. Whatever the arguments and however the run ends, the dataset
    object after [make_model_powexp] and after [make_model_cov3par] is the
    dataset object before: the attributes [cont_cad], [rj] and [marr] are
    read and nothing is written. *)
Theorem builders_leave_zydata_unchanged :
  forall sp tp np verbose w,
    zydata_obj (snd (make_model_powexp float_of_str fmt_3f fmt_s loglike_prh
                       sp tp np verbose w))
    = zydata_obj w
    /\ forall covfunc par_init,
        zydata_obj (snd (make_model_cov3par float_of_str fmt_3f fmt_s loglike_prh
                           covfunc sp tp np par_init verbose w))
        = zydata_obj w.
Proof.
  intros sp tp np verbose w. split.
  - apply frame_make_model_powexp.
  - intros covfunc par_init. apply frame_make_model_cov3par.
Qed.

(* ------------------------------------------------------------------ *)
(** ** The dispatch on the prior arguments *)

Lemma named_In (names : list string) (s : string) :
  named names (PyStr s) = true -> In s names.
Proof.
  unfold named. intro H. apply existsb_exists in H. destruct H as (n & Hin & He).
  simpl in He. apply String.eqb_eq in He. now subst.
Qed.

Lemma named_not_str (names : list string) (v : pyval) :
  (forall s, v <> PyStr s) -> named names v = false.
Proof.
  intro H. unfold named. induction names as [| n names IH]; [reflexivity |].
  simpl. rewrite IH. destruct v; [now destruct (H s) | reflexivity | reflexivity].
Qed.

Lemma float_not_named (names : list string) (v : pyval) (x : R) :
  (forall s, In s names -> float_of_str s = None) ->
  py_float float_of_str v = Some x -> named names v = false.
Proof.
  intros Hrej Hf. destruct v as [s | y |].
  - destruct (named names (PyStr s)) eqn:E; [| reflexivity].
    apply named_In in E. simpl in Hf. rewrite (Hrej s E) in Hf. discriminate.
  - apply named_not_str. discriminate.
  - discriminate.
Qed.

Lemma rejects_sigma_names :
  rejects_names float_of_str -> forall s, In s sigma_names -> float_of_str s = None.
Proof. intros H s Hs. apply H. apply in_or_app. now left. Qed.

Lemma rejects_tau_names :
  rejects_names float_of_str -> forall s, In s tau_names -> float_of_str s = None.
Proof. intros H s Hs. apply H. apply in_or_app. right. apply in_or_app. now left. Qed.

Lemma rejects_nu_names :
  rejects_names float_of_str -> forall s, In s nu_names -> float_of_str s = None.
Proof. intros H s Hs. apply H. apply in_or_app. right. apply in_or_app. now right. Qed.

Lemma usable_float_after_names (names : list string) (v : pyval) :
  usable float_of_str names v -> named names v = false -> exists x, py_float float_of_str v = Some x.
Proof.
  intros [H | H] Hn; [congruence |].
  destruct (py_float float_of_str v) as [x |]; [eauto | congruence].
Qed.

Lemma sigma_prior_usable (ry : R) (v : pyval) (verbose : bool) (w : world) :
  usable float_of_str sigma_names v ->
  returns (sigma_prior float_of_str fmt_3f fmt_s ry v verbose w).
Proof.
  intro H. destruct (named sigma_names v) eqn:E.
  - unfold sigma_prior. unfold named, sigma_names in E. simpl in E.
    repeat match goal with
           | |- context [if ?b then _ else _] => destruct b; [apply returns_ret |]
           end.
    discriminate.
  - destruct (usable_float_after_names _ _ H E) as [x Hx].
    destruct (sigma_prior_float ry v verbose x w E Hx) as [w' Hw]. rewrite Hw.
    eexists. eexists. reflexivity.
Qed.

Lemma tau_prior_usable (rx cadence : R) (v : pyval) (verbose : bool) (w : world) :
  usable float_of_str tau_names v ->
  returns (tau_prior float_of_str fmt_3f fmt_s rx cadence v verbose w).
Proof.
  intro H. destruct (named tau_names v) eqn:E.
  - unfold tau_prior. unfold named, tau_names in E. simpl in E.
    repeat match goal with
           | |- context [if ?b then _ else _] => destruct b; [apply returns_ret |]
           end.
    discriminate.
  - destruct (usable_float_after_names _ _ H E) as [x Hx].
    destruct (tau_prior_float rx cadence v verbose x w E Hx) as [w' Hw]. rewrite Hw.
    eexists. eexists. reflexivity.
Qed.

(** The run of the covfunc-dependent stage when it completes. *)
Lemma init_values_completes (rx cadence ry : R) (covfunc : pystr)
  (par_init : option (list R)) (w : world) :
  (par_init = None -> known_covfunc covfunc = true) ->
  exists inits, init_values rx cadence ry covfunc par_init w = (Ok inits, w)
                /\ (par_init = None -> snd (fst inits) = nu_init_of covfunc
                                       /\ nu_init_of covfunc <> None).
Proof.
  intro H. destruct par_init as [given |].
  - eexists. split; [apply init_values_given | discriminate].
  - specialize (H eq_refl). apply nu_init_of_known in H.
    destruct (nu_init_of covfunc) as [nu0 |] eqn:E; [| congruence].
    eexists. split; [apply (init_values_known _ _ _ _ nu0 w E) |].
    intros _. simpl. split; congruence.
Qed.

Lemma powexp_unusable_raises (sp tp np : pyval) (verbose : bool) (w : world) :
  marr (zydata_obj w) <> [] ->
  unusable float_of_str sigma_names sp \/ unusable float_of_str tau_names tp
  \/ unusable float_of_str nu_names np ->
  raises_RuntimeError
    (make_model_powexp float_of_str fmt_3f fmt_s loglike_prh sp tp np verbose w).
Proof.
  intros Hne H. rewrite (make_model_powexp_run sp tp np verbose w Hne).
  destruct H as [H | [H | H]].
  - apply bind_raises_l. now apply sigma_prior_unusable.
  - apply bind_raises_r; [apply sigma_prior_outcome | intros sig w1].
    apply bind_raises_l. now apply tau_prior_unusable.
  - apply bind_raises_r; [apply sigma_prior_outcome | intros sig w1].
    apply bind_raises_r; [apply tau_prior_outcome | intros tau w2].
    apply bind_raises_l. now apply nu_prior_powexp_unusable.
Qed.

Lemma cov3par_unusable_raises (covfunc : pystr) (sp tp np : pyval)
  (par_init : option (list R)) (verbose : bool) (w : world) :
  marr (zydata_obj w) <> [] ->
  (par_init = None -> known_covfunc covfunc = true) ->
  unusable float_of_str sigma_names sp \/ unusable float_of_str tau_names tp
  \/ unusable float_of_str nu_names np ->
  raises_RuntimeError
    (make_model_cov3par float_of_str fmt_3f fmt_s loglike_prh
       covfunc sp tp np par_init verbose w).
Proof.
  intros Hne Hcov H.
  rewrite (make_model_cov3par_run covfunc sp tp np par_init verbose w Hne).
  destruct (init_values_completes (rj (zydata_obj w)) (cont_cad (zydata_obj w))
              (range_of (marr (zydata_obj w))) covfunc par_init w Hcov)
    as (inits & Hin & _).
  rewrite (bind_Ok _ _ _ _ _ Hin).
  destruct H as [H | [H | H]].
  - apply bind_raises_l. now apply sigma_prior_unusable.
  - apply bind_raises_r; [apply sigma_prior_outcome | intros sig w1].
    apply bind_raises_l. now apply tau_prior_unusable.
  - apply bind_raises_r; [apply sigma_prior_outcome | intros sig w1].
    apply bind_raises_r; [apply tau_prior_outcome | intros tau w2].
    apply bind_raises_l. now apply nu_prior_cov3par_unusable.
Qed.



(** C2 (amended). On a dataset with at least one magnitude, a
    [use_sigprior] that is neither "CSK", "Vague", "Gamma", "None" nor
    convertible by [float()] makes [make_model_powexp] end in a
    [RuntimeError], with no locals and no likelihood node returned, and
    likewise a [use_tauprior] outside "CSK", "Vague", "IG", "None" and a
    [use_nuprior] other than "Uniform"; [make_model_cov3par] does the same
    whenever its run reaches the dispatch, that is when [par_init] is given
    or [covfunc] is one of the four literals.  Conversely a value [float()]
    converts to [x] makes the dispatch of its parameter yield the plain
    number [x] without raising, and that number is what the locals hold
    whenever the builder returns. *)
Theorem prior_dispatch_where_reached :
  forall sp tp np verbose w,
    (marr (zydata_obj w) <> [] ->
     unusable float_of_str sigma_names sp \/ unusable float_of_str tau_names tp
     \/ unusable float_of_str nu_names np ->
     raises_RuntimeError
       (make_model_powexp float_of_str fmt_3f fmt_s loglike_prh sp tp np verbose w)
     /\ forall covfunc par_init,
         (par_init = None -> known_covfunc covfunc = true) ->
         raises_RuntimeError
           (make_model_cov3par float_of_str fmt_3f fmt_s loglike_prh
              covfunc sp tp np par_init verbose w))
    /\
    (rejects_names float_of_str ->
     (forall x ry, py_float float_of_str sp = Some x ->
        exists w1, sigma_prior float_of_str fmt_3f fmt_s ry sp verbose w
                   = (Ok (None, Fixed x), w1))
     /\ (forall x rx cadence, py_float float_of_str tp = Some x ->
        exists w1, tau_prior float_of_str fmt_3f fmt_s rx cadence tp verbose w
                   = (Ok (Fixed x), w1))
     /\ (forall x, py_float float_of_str np = Some x ->
        (exists w1, nu_prior_powexp float_of_str fmt_3f fmt_s np verbose w
                    = (Ok (Fixed x), w1))
        /\ forall nu_limits nu_init,
            exists w1, nu_prior_cov3par float_of_str fmt_3f fmt_s
                         nu_limits nu_init np verbose w = (Ok (Fixed x), w1))
     /\ (forall m w',
        make_model_powexp float_of_str fmt_3f fmt_s loglike_prh sp tp np verbose w
        = (Ok m, w') ->
        (forall x, py_float float_of_str sp = Some x -> pe_sigma m = Fixed x)
        /\ (forall x, py_float float_of_str tp = Some x -> pe_tau m = Fixed x)
        /\ (forall x, py_float float_of_str np = Some x -> pe_nu m = Fixed x))
     /\ (forall covfunc par_init m w',
        make_model_cov3par float_of_str fmt_3f fmt_s loglike_prh
          covfunc sp tp np par_init verbose w = (Ok m, w') ->
        (forall x, py_float float_of_str sp = Some x -> c3_sigma m = Fixed x)
        /\ (forall x, py_float float_of_str tp = Some x -> c3_tau m = Fixed x)
        /\ (forall x, py_float float_of_str np = Some x -> c3_nu m = Fixed x))).
Proof.
  intros sp tp np verbose w. split.
  - intros Hne H. split.
    + now apply powexp_unusable_raises.
    + intros covfunc par_init Hcov. now apply cov3par_unusable_raises.
  - intro Hrej.
    pose proof (rejects_sigma_names Hrej) as Rs.
    pose proof (rejects_tau_names Hrej) as Rt.
    pose proof (rejects_nu_names Hrej) as Rn.
    split; [| split; [| split; [| split]]].
    + intros x ry Hx. apply sigma_prior_float; [| exact Hx].
      exact (float_not_named _ _ _ Rs Hx).
    + intros x rx cadence Hx. apply tau_prior_float; [| exact Hx].
      exact (float_not_named _ _ _ Rt Hx).
    + intros x Hx. pose proof (float_not_named _ _ _ Rn Hx) as Hn. split.
      * now apply nu_prior_powexp_float.
      * intros lim init. now apply nu_prior_cov3par_float.
    + intros m w' H. apply make_model_powexp_Ok in H.
      destruct H as (_ & sig & w1 & tau & w2 & nu & Hsig & Htau & Hnu & ->). simpl.
      repeat split; intros x Hx.
      * destruct (sigma_prior_float (range_of (marr (zydata_obj w))) sp verbose x w
                    (float_not_named _ _ _ Rs Hx) Hx) as [w0 H0].
        rewrite H0 in Hsig. now inversion Hsig.
      * destruct (tau_prior_float (rj (zydata_obj w)) (cont_cad (zydata_obj w))
                    tp verbose x w1 (float_not_named _ _ _ Rt Hx) Hx) as [w0 H0].
        rewrite H0 in Htau. now inversion Htau.
      * destruct (nu_prior_powexp_float np verbose x w2
                    (float_not_named _ _ _ Rn Hx) Hx) as [w0 H0].
        rewrite H0 in Hnu. now inversion Hnu.
    + intros covfunc par_init m w' H. apply make_model_cov3par_Ok in H.
      destruct H as (_ & inits & sig & w1 & tau & w2 & nu & _ & Hsig & Htau & Hnu & ->).
      simpl. repeat split; intros x Hx.
      * destruct (sigma_prior_float (range_of (marr (zydata_obj w))) sp verbose x w
                    (float_not_named _ _ _ Rs Hx) Hx) as [w0 H0].
        rewrite H0 in Hsig. now inversion Hsig.
      * destruct (tau_prior_float (rj (zydata_obj w)) (cont_cad (zydata_obj w))
                    tp verbose x w1 (float_not_named _ _ _ Rt Hx) Hx) as [w0 H0].
        rewrite H0 in Htau. now inversion Htau.
      * destruct (nu_prior_cov3par_float (nu_limits_of covfunc) (snd (fst inits))
                    np verbose x w2 (float_not_named _ _ _ Rn Hx) Hx) as [w0 H0].
        rewrite H0 in Hnu. now inversion Hnu.
Qed.

(* ------------------------------------------------------------------ *)
(** ** The dispatch on covfunc *)

Lemma py_is_lit (s t : string) : py_is (lit s) t = String.eqb s t.
Proof. reflexivity. Qed.

Lemma not_interned_unknown (covfunc : pystr) :
  interned covfunc = false -> known_covfunc covfunc = false.
Proof. intro H. unfold known_covfunc, py_is. rewrite H. reflexivity. Qed.

(** With [par_init] left at [None], a [covfunc] that is none of the four
    literal objects stops the builder at line 179, where [nu_init] is read
    with no branch having assigned it. *)
Lemma cov3par_unknown_covfunc (covfunc : pystr) (sp tp np : pyval)
  (verbose : bool) (w : world) :
  marr (zydata_obj w) <> [] ->
  known_covfunc covfunc = false ->
  make_model_cov3par float_of_str fmt_3f fmt_s loglike_prh
    covfunc sp tp np None verbose w
  = (Raise (UnboundLocalError "nu_init"), w).
Proof.
  intros Hne Hk. rewrite (make_model_cov3par_run covfunc sp tp np None verbose w Hne).
  apply bind_Raise. apply init_values_unknown.
  destruct (nu_init_of covfunc) eqn:E; [| reflexivity].
  assert (known_covfunc covfunc = true) by (apply nu_init_of_known; congruence).
  congruence.
Qed.

Lemma covfunc_table_lit (name : string) (nu0 lo hi : R) :
  In (name, (nu0, (lo, hi))) covfunc_table ->
  nu_init_of (lit name) = Some nu0 /\ nu_limits_of (lit name) = Some (lo, hi).
Proof.
  unfold covfunc_table. simpl.
  intros [E | [E | [E | [E | []]]]]; inversion E; subst; split; reflexivity.
Qed.

(** With [par_init] left at [None] and [use_nuprior] "Uniform", each of the
    four literals gives nu the initial value and the limits of its row of
    [covfunc_table]. *)
Lemma cov3par_literal_nu (name : string) (nu0 lo hi : R) (sp tp : pyval)
  (verbose : bool) (w : world) :
  In (name, (nu0, (lo, hi))) covfunc_table ->
  forall m w',
    make_model_cov3par float_of_str fmt_3f fmt_s loglike_prh
      (lit name) sp tp (PyStr "Uniform") None verbose w = (Ok m, w') ->
    c3_nu m = Uniform "nu" lo hi nu0
    /\ c3_nu_init m = Some nu0
    /\ c3_nu_limits m = Some (lo, hi).
Proof.
  intros Hin m w' H. apply covfunc_table_lit in Hin. destruct Hin as [Ei El].
  apply make_model_cov3par_Ok in H.
  destruct H as (_ & inits & sig & w1 & tau & w2 & nu & Hi & _ & _ & Hnu & ->). simpl.
  rewrite (init_values_known _ _ _ _ nu0 w Ei) in Hi. inversion Hi; subst. simpl in *.
  rewrite El in *. rewrite nu_prior_cov3par_Uniform in Hnu. inversion Hnu; subst. auto.
Qed.

(** C3 (evaluation). The claim gives, for [covfunc] "matern", the initial
    value 0.5 and the limits (0.001, 2.000) of nu.  A [covfunc] with the
    characters "matern" that is not the literal's own object fails every
    [is] test of lines 171-178, and the builder, whatever the prior
    arguments, ends at line 179 with [nu_init] unbound: no nu is built. *)
Theorem cov3par_equal_string_leaves_nu_init_unbound :
  forall sp tp np verbose,
    chars Sample.matern_copy = "matern"
    /\ make_model_cov3par float_of_str fmt_3f fmt_s loglike_prh
         Sample.matern_copy sp tp np None verbose Sample.world0
       = (Raise (UnboundLocalError "nu_init"), Sample.world0).
Proof.
  intros sp tp np verbose. split; [reflexivity |].
  apply cov3par_unknown_covfunc; [discriminate | reflexivity].
Qed.

(** C4 (evaluation). The claim has an unrecognised [covfunc] rejected by an
    explicit raise, as the unrecognised prior names are.  At [covfunc]
    "gaussian" with [par_init] left at [None] the builder ends instead with
    [nu_init] unbound (line 179), which is not a [RuntimeError]. *)
Theorem cov3par_unrecognised_covfunc_is_not_rejected :
  forall sp tp np verbose,
    let run := make_model_cov3par float_of_str fmt_3f fmt_s loglike_prh
                 (lit "gaussian") sp tp np None verbose Sample.world0 in
    run = (Raise (UnboundLocalError "nu_init"), Sample.world0)
    /\ ~ raises_RuntimeError run.
Proof.
  intros sp tp np verbose run.
  assert (H : run = (Raise (UnboundLocalError "nu_init"), Sample.world0)).
  { apply cov3par_unknown_covfunc; [discriminate | reflexivity]. }
  split; [exact H |]. rewrite H. intros (msg & w' & E). discriminate.
Qed.

(* ------------------------------------------------------------------ *)
(** ** The priors the builders hold, stage by stage *)

Lemma powexp_stages (sp tp np : pyval) (verbose : bool) (w w' : world)
  (m : powexp_locals) :
  make_model_powexp float_of_str fmt_3f fmt_s loglike_prh sp tp np verbose w = (Ok m, w') ->
  marr (zydata_obj w) <> []
  /\ pe_ry m = range_of (marr (zydata_obj w))
  /\ exists w1 w2,
      sigma_prior float_of_str fmt_3f fmt_s (pe_ry m) sp verbose w
      = (Ok (pe_invsigsq m, pe_sigma m), w1)
      /\ tau_prior float_of_str fmt_3f fmt_s (rj (zydata_obj w)) (cont_cad (zydata_obj w))
           tp verbose w1
         = (Ok (pe_tau m), w2).
Proof.
  intro H. apply make_model_powexp_Ok in H.
  destruct H as (Hne & [i s] & w1 & tau & w2 & nu & Hsig & Htau & _ & ->). simpl.
  split; [exact Hne |]. split; [reflexivity |]. exists w1, w2. auto.
Qed.

Lemma cov3par_stages (covfunc : pystr) (sp tp np : pyval)
  (par_init : option (list R)) (verbose : bool) (w w' : world) (m : cov3par_locals) :
  make_model_cov3par float_of_str fmt_3f fmt_s loglike_prh
    covfunc sp tp np par_init verbose w = (Ok m, w') ->
  marr (zydata_obj w) <> []
  /\ c3_ry m = range_of (marr (zydata_obj w))
  /\ exists w1 w2,
      sigma_prior float_of_str fmt_3f fmt_s (c3_ry m) sp verbose w
      = (Ok (c3_invsigsq m, c3_sigma m), w1)
      /\ tau_prior float_of_str fmt_3f fmt_s (rj (zydata_obj w)) (cont_cad (zydata_obj w))
           tp verbose w1
         = (Ok (c3_tau m), w2).
Proof.
  intro H. apply make_model_cov3par_Ok in H.
  destruct H as (Hne & inits & [i s] & w1 & tau & w2 & nu & _ & Hsig & Htau & _ & ->).
  simpl. split; [exact Hne |]. split; [reflexivity |]. exists w1, w2. auto.
Qed.

Lemma sigma_prior_CSK (ry : R) (verbose : bool) (w : world) :
  sigma_prior float_of_str fmt_3f fmt_s ry (PyStr "CSK") verbose w
  = (Ok (None, Stochastic "sigma" sigma_logp (ry / 4)), w).
Proof. rewrite <- lit_4. reflexivity. Qed.

Lemma sigma_prior_Vague (ry : R) (verbose : bool) (w : world) :
  sigma_prior float_of_str fmt_3f fmt_s ry (PyStr "Vague") verbose w
  = (Ok (Some (Gamma "invsigsq" 0.001 0.001 (invsigsq_init ry)),
         Deterministic "sigma" sigma_of_invsigsq
           (Gamma "invsigsq" 0.001 0.001 (invsigsq_init ry))), w).
Proof. reflexivity. Qed.

Lemma sigma_prior_Gamma (ry : R) (verbose : bool) (w : world) :
  sigma_prior float_of_str fmt_3f fmt_s ry (PyStr "Gamma") verbose w
  = (Ok (Some (Gamma "invsigsq" 2 (invsigsq_init ry) (invsigsq_init ry)),
         Deterministic "sigma" sigma_of_invsigsq
           (Gamma "invsigsq" 2 (invsigsq_init ry) (invsigsq_init ry))), w).
Proof. rewrite <- lit_2. reflexivity. Qed.

Lemma sigma_prior_None (ry : R) (verbose : bool) (w : world) :
  sigma_prior float_of_str fmt_3f fmt_s ry (PyStr "None") verbose w
  = (Ok (Some (Uninformative "invsigsq" (invsigsq_init ry)),
         Deterministic "sigma" sigma_of_invsigsq_guarded
           (Uninformative "invsigsq" (invsigsq_init ry))), w).
Proof. reflexivity. Qed.

Lemma tau_prior_CSK (rx cadence : R) (verbose : bool) (w : world) :
  tau_prior float_of_str fmt_3f fmt_s rx cadence (PyStr "CSK") verbose w
  = (Ok (Stochastic "tau" (tau_logp cadence) (sqrt (rx * cadence))), w).
Proof. reflexivity. Qed.

(* ------------------------------------------------------------------ *)
(** ** The log-densities *)

Lemma sigma_logp_pos (value : R) :
  0 < value -> sigma_logp value = Some (Finite (- ln value)).
Proof. intro H. unfold sigma_logp. rewrite lit_0. decide_cmp. reflexivity. Qed.

Lemma sigma_logp_neg (value : R) :
  value < 0 -> sigma_logp value = Some NegInf.
Proof. intro H. unfold sigma_logp. rewrite lit_0. decide_cmp. reflexivity. Qed.

Lemma sigma_logp_zero : sigma_logp 0 = None.
Proof. unfold sigma_logp. rewrite lit_0. decide_cmp. reflexivity. Qed.

Lemma sigma_logp_None (value : R) : sigma_logp value = None <-> value = 0.
Proof.
  split.
  - intro H. destruct (Rtotal_order value 0) as [Hlt | [Heq | Hgt]].
    + rewrite (sigma_logp_neg value Hlt) in H. discriminate.
    + exact Heq.
    + rewrite (sigma_logp_pos value Hgt) in H. discriminate.
  - intros ->. apply sigma_logp_zero.
Qed.

Lemma tau_logp_above (cadence value : R) :
  cadence < value < 10000 ->
  tau_logp cadence value = Some (Finite (- ln (value / cadence))).
Proof.
  intro H. unfold tau_logp. rewrite lit_1, Rmult_1_l. decide_cmp. reflexivity.
Qed.

Lemma tau_logp_below (cadence value : R) :
  0 < value <= cadence ->
  tau_logp cadence value = Some (Finite (- ln (cadence / value))).
Proof.
  intro H. unfold tau_logp. rewrite lit_0, lit_1, Rmult_1_l.
  rewrite (Rltb_false cadence value) by lra. rewrite andb_false_r.
  decide_cmp. reflexivity.
Qed.

Lemma tau_logp_otherwise (cadence value : R) :
  ~ cadence < value < 10000 -> ~ 0 < value <= cadence ->
  tau_logp cadence value = Some NegInf.
Proof.
  intros H1 H2. unfold tau_logp. rewrite lit_0, lit_1, Rmult_1_l.
  unfold Rltb, Rleb.
  destruct (Rlt_dec value 10000), (Rlt_dec cadence value),
    (Rlt_dec 0 value), (Rle_dec value cadence); simpl; try reflexivity;
    exfalso; lra.
Qed.

(** With a positive cadence the two finite branches are the two lobes of
    [-|log(value/cadence)|], and the logarithm is taken of a positive number. *)
Lemma tau_logp_abs (cadence value : R) :
  0 < cadence -> 0 < value < 10000 ->
  0 < value / cadence
  /\ tau_logp cadence value = Some (Finite (- Rabs (ln (value / cadence)))).
Proof.
  intros Hc Hv.
  assert (Hq : 0 < value / cadence) by (apply Rdiv_lt_0_compat; lra).
  split; [exact Hq |].
  destruct (Rlt_dec cadence value) as [Hlt | Hge].
  - rewrite tau_logp_above by lra.
    assert (1 < value / cadence).
    { apply Rmult_lt_reg_r with cadence; [exact Hc |].
      unfold Rdiv. rewrite Rmult_assoc, Rinv_l by lra. lra. }
    assert (0 < ln (value / cadence)).
    { rewrite <- ln_1. apply ln_increasing; lra. }
    rewrite Rabs_pos_eq by lra. reflexivity.
  - rewrite tau_logp_below by lra.
    assert (Hinv : cadence / value = / (value / cadence)).
    { field. lra. }
    rewrite Hinv, ln_Rinv by exact Hq.
    assert (value / cadence <= 1).
    { apply Rmult_le_reg_r with cadence; [exact Hc |].
      unfold Rdiv. rewrite Rmult_assoc, Rinv_l by lra. lra. }
    assert (ln (value / cadence) <= 0).
    { destruct (Req_dec (value / cadence) 1) as [E | N].
      - rewrite E, ln_1. lra.
      - rewrite <- ln_1. apply Rlt_le. apply ln_increasing; lra. }
    assert (Ha : Rabs (ln (value / cadence)) = - ln (value / cadence)).
    { destruct (Req_dec (ln (value / cadence)) 0) as [E | N].
      - rewrite E, Rabs_R0. lra.
      - apply Rabs_left. lra. }
    rewrite Ha. reflexivity.
Qed.

Lemma sigma_of_invsigsq_pos (invsigsq : R) :
  0 < invsigsq ->
  0 < sqrt invsigsq /\ sigma_of_invsigsq invsigsq = 1 / sqrt invsigsq.
Proof.
  intro H. split; [now apply sqrt_lt_R0 |].
  unfold sigma_of_invsigsq, np_sqrt. rewrite lit_1. reflexivity.
Qed.

Lemma sigma_of_invsigsq_guarded_small (invsigsq : R) :
  Rabs invsigsq < 1e-6 -> sigma_of_invsigsq_guarded invsigsq = 1e6.
Proof.
  intro H. unfold sigma_of_invsigsq_guarded, np_abs. now rewrite Rltb_true.
Qed.

Lemma sigma_of_invsigsq_guarded_large (invsigsq : R) :
  ~ Rabs invsigsq < 1e-6 ->
  0 < Rabs invsigsq /\ sqrt (Rabs invsigsq) <> 0
  /\ sigma_of_invsigsq_guarded invsigsq = 1 / sqrt (Rabs invsigsq).
Proof.
  intro H. assert (Hp : 0 < Rabs invsigsq) by lra.
  split; [exact Hp |]. split.
  - apply Rgt_not_eq. now apply sqrt_lt_R0.
  - unfold sigma_of_invsigsq_guarded, np_abs, np_sqrt.
    rewrite Rltb_false by exact H. rewrite lit_1. reflexivity.
Qed.

Lemma sigma_of_invsigsq_guarded_bounds (invsigsq : R) :
  0 < sigma_of_invsigsq_guarded invsigsq <= 1e6.
Proof.
  destruct (Rlt_dec (Rabs invsigsq) 1e-6) as [Hs | Hl].
  - rewrite sigma_of_invsigsq_guarded_small by exact Hs. lra.
  - destruct (sigma_of_invsigsq_guarded_large invsigsq Hl) as (Hp & _ & ->).
    assert (Hr : 1e-3 <= sqrt (Rabs invsigsq)).
    { replace 1e-3 with (sqrt (1e-3 * 1e-3)) by (apply sqrt_square; lra).
      apply sqrt_le_1_alt. lra. }
    assert (Hi : / sqrt (Rabs invsigsq) <= / 1e-3).
    { apply Rinv_le_contravar; lra. }
    assert (Hpos : 0 < / sqrt (Rabs invsigsq)).
    { apply Rinv_0_lt_compat. lra. }
    replace (/ 1e-3) with 1000 in Hi by lra.
    unfold Rdiv. rewrite Rmult_1_l. lra.
Qed.

Lemma powexp_ry (sp tp np : pyval) (verbose : bool) (w w' : world) (m : powexp_locals) :
  make_model_powexp float_of_str fmt_3f fmt_s loglike_prh sp tp np verbose w = (Ok m, w') ->
  is_range (pe_ry m) (marr (zydata_obj w)).
Proof.
  intro H. apply powexp_stages in H. destruct H as (Hne & -> & _).
  now apply range_of_spec.
Qed.

Lemma cov3par_ry (covfunc : pystr) (sp tp np : pyval) (par_init : option (list R))
  (verbose : bool) (w w' : world) (m : cov3par_locals) :
  make_model_cov3par float_of_str fmt_3f fmt_s loglike_prh
    covfunc sp tp np par_init verbose w = (Ok m, w') ->
  is_range (c3_ry m) (marr (zydata_obj w)).
Proof.
  intro H. apply cov3par_stages in H. destruct H as (Hne & -> & _).
  now apply range_of_spec.
Qed.

(** C5. Under [use_tauprior == "CSK"] the tau of either builder is a
    stochastic variable whose log-density at [value] is
    [-log(value/cadence)] when [cadence < value < 10000],
    [-log(cadence/value)] when [0 < value <= cadence] and [-inf] in every
    other case, with [cadence = zydata.cont_cad]; for a positive cadence this
    is [-|log(value/cadence)|] on (0, 10000), the logarithm being taken of a
    positive number.  Its initial value is [sqrt(zydata.rj * cadence)]. *)
Theorem tau_csk_prior :
  (forall cadence value,
      (cadence < value < 10000 ->
       tau_logp cadence value = Some (Finite (- ln (value / cadence))))
      /\ (0 < value <= cadence ->
          tau_logp cadence value = Some (Finite (- ln (cadence / value))))
      /\ (~ cadence < value < 10000 -> ~ 0 < value <= cadence ->
          tau_logp cadence value = Some NegInf)
      /\ (0 < cadence -> 0 < value < 10000 ->
          0 < value / cadence
          /\ tau_logp cadence value = Some (Finite (- Rabs (ln (value / cadence))))))
  /\ (forall sp np verbose w m w',
        make_model_powexp float_of_str fmt_3f fmt_s loglike_prh
          sp (PyStr "CSK") np verbose w = (Ok m, w') ->
        pe_tau m = Stochastic "tau" (tau_logp (cont_cad (zydata_obj w)))
                     (sqrt (rj (zydata_obj w) * cont_cad (zydata_obj w))))
  /\ (forall covfunc sp np par_init verbose w m w',
        make_model_cov3par float_of_str fmt_3f fmt_s loglike_prh
          covfunc sp (PyStr "CSK") np par_init verbose w = (Ok m, w') ->
        c3_tau m = Stochastic "tau" (tau_logp (cont_cad (zydata_obj w)))
                     (sqrt (rj (zydata_obj w) * cont_cad (zydata_obj w)))).
Proof.
  split; [| split].
  - intros cadence value. split; [| split; [| split]].
    + apply tau_logp_above.
    + apply tau_logp_below.
    + apply tau_logp_otherwise.
    + apply tau_logp_abs.
  - intros sp np verbose w m w' H. apply powexp_stages in H.
    destruct H as (_ & _ & w1 & w2 & _ & Htau).
    rewrite tau_prior_CSK in Htau. now inversion Htau.
  - intros covfunc sp np par_init verbose w m w' H. apply cov3par_stages in H.
    destruct H as (_ & _ & w1 & w2 & _ & Htau).
    rewrite tau_prior_CSK in Htau. now inversion Htau.
Qed.

(** C6. Under [use_sigprior == "CSK"] the sigma of either builder is a
    stochastic variable whose log-density is [-log(value)] at every
    [value > 0] and [-inf] at every [value < 0], and whose initial value is
    [ry/4], [ry] being the largest entry of [zydata.marr] minus the
    smallest. *)
Theorem sigma_csk_prior :
  (forall value, 0 < value -> sigma_logp value = Some (Finite (- ln value)))
  /\ (forall value, value < 0 -> sigma_logp value = Some NegInf)
  /\ (forall tp np verbose w m w',
        make_model_powexp float_of_str fmt_3f fmt_s loglike_prh
          (PyStr "CSK") tp np verbose w = (Ok m, w') ->
        is_range (pe_ry m) (marr (zydata_obj w))
        /\ pe_sigma m = Stochastic "sigma" sigma_logp (pe_ry m / 4))
  /\ (forall covfunc tp np par_init verbose w m w',
        make_model_cov3par float_of_str fmt_3f fmt_s loglike_prh
          covfunc (PyStr "CSK") tp np par_init verbose w = (Ok m, w') ->
        is_range (c3_ry m) (marr (zydata_obj w))
        /\ c3_sigma m = Stochastic "sigma" sigma_logp (c3_ry m / 4)).
Proof.
  split; [exact sigma_logp_pos |]. split; [exact sigma_logp_neg |]. split.
  - intros tp np verbose w m w' H. split; [exact (powexp_ry _ _ _ _ _ _ _ H) |].
    apply powexp_stages in H. destruct H as (_ & _ & w1 & w2 & Hsig & _).
    rewrite sigma_prior_CSK in Hsig. now inversion Hsig.
  - intros covfunc tp np par_init verbose w m w' H.
    split; [exact (cov3par_ry _ _ _ _ _ _ _ _ _ H) |].
    apply cov3par_stages in H. destruct H as (_ & _ & w1 & w2 & Hsig & _).
    rewrite sigma_prior_CSK in Hsig. now inversion Hsig.
Qed.

(** C7. Under [use_sigprior == "Vague"] (alpha 0.001, beta 0.001) and under
    [use_sigprior == "Gamma"] (alpha 2, beta [1/(ry/4)^2]) either builder
    declares a Gamma variable [invsigsq] with initial value [1/(ry/4)^2] and
    the deterministic [sigma] with that variable as parent and
    [1/sqrt(invsigsq)] as function; at every positive [invsigsq] the square
    root is positive and the function is [1/sqrt(invsigsq)].  The initial
    value is the quotient the source writes; its divisor is zero on a dataset
    whose magnitudes are all equal. *)
Theorem sigma_gamma_priors :
  (forall invsigsq, 0 < invsigsq ->
     0 < sqrt invsigsq /\ sigma_of_invsigsq invsigsq = 1 / sqrt invsigsq)
  /\ (forall tp np verbose w m w',
        (make_model_powexp float_of_str fmt_3f fmt_s loglike_prh
           (PyStr "Vague") tp np verbose w = (Ok m, w') ->
         let invsigsq := Gamma "invsigsq" 0.001 0.001 (1 / (pe_ry m / 4) ^ 2) in
         is_range (pe_ry m) (marr (zydata_obj w))
         /\ pe_invsigsq m = Some invsigsq
         /\ pe_sigma m = Deterministic "sigma" sigma_of_invsigsq invsigsq)
        /\ (make_model_powexp float_of_str fmt_3f fmt_s loglike_prh
              (PyStr "Gamma") tp np verbose w = (Ok m, w') ->
            let invsigsq :=
              Gamma "invsigsq" 2 (1 / (pe_ry m / 4) ^ 2) (1 / (pe_ry m / 4) ^ 2) in
            is_range (pe_ry m) (marr (zydata_obj w))
            /\ pe_invsigsq m = Some invsigsq
            /\ pe_sigma m = Deterministic "sigma" sigma_of_invsigsq invsigsq))
  /\ (forall covfunc tp np par_init verbose w m w',
        (make_model_cov3par float_of_str fmt_3f fmt_s loglike_prh
           covfunc (PyStr "Vague") tp np par_init verbose w = (Ok m, w') ->
         let invsigsq := Gamma "invsigsq" 0.001 0.001 (1 / (c3_ry m / 4) ^ 2) in
         is_range (c3_ry m) (marr (zydata_obj w))
         /\ c3_invsigsq m = Some invsigsq
         /\ c3_sigma m = Deterministic "sigma" sigma_of_invsigsq invsigsq)
        /\ (make_model_cov3par float_of_str fmt_3f fmt_s loglike_prh
              covfunc (PyStr "Gamma") tp np par_init verbose w = (Ok m, w') ->
            let invsigsq :=
              Gamma "invsigsq" 2 (1 / (c3_ry m / 4) ^ 2) (1 / (c3_ry m / 4) ^ 2) in
            is_range (c3_ry m) (marr (zydata_obj w))
            /\ c3_invsigsq m = Some invsigsq
            /\ c3_sigma m = Deterministic "sigma" sigma_of_invsigsq invsigsq)).
Proof.
  split; [exact sigma_of_invsigsq_pos |]. split.
  - intros tp np verbose w m w'. split; intro H;
      (split; [exact (powexp_ry _ _ _ _ _ _ _ H) |]);
      apply powexp_stages in H; destruct H as (_ & _ & w1 & w2 & Hsig & _).
    + rewrite sigma_prior_Vague, invsigsq_init_eq in Hsig.
      inversion Hsig. split; reflexivity.
    + rewrite sigma_prior_Gamma, invsigsq_init_eq in Hsig.
      inversion Hsig. split; reflexivity.
  - intros covfunc tp np par_init verbose w m w'. split; intro H;
      (split; [exact (cov3par_ry _ _ _ _ _ _ _ _ _ H) |]);
      apply cov3par_stages in H; destruct H as (_ & _ & w1 & w2 & Hsig & _).
    + rewrite sigma_prior_Vague, invsigsq_init_eq in Hsig.
      inversion Hsig. split; reflexivity.
    + rewrite sigma_prior_Gamma, invsigsq_init_eq in Hsig.
      inversion Hsig. split; reflexivity.
Qed.

(** C8. Under [use_sigprior == "CSK"] the log-density of sigma has no value
    at 0: neither [value > 0.0] nor [value < 0.0] holds there, the function
    falls off its end and hands back [None]; 0 is the only such input.  The
    sigma either builder holds carries this function. *)
Theorem sigma_csk_logp_has_no_value_at_zero :
  sigma_logp 0 = None
  /\ (forall value, sigma_logp value = None <-> value = 0)
  /\ (forall tp np verbose w m w',
        make_model_powexp float_of_str fmt_3f fmt_s loglike_prh
          (PyStr "CSK") tp np verbose w = (Ok m, w') ->
        exists logp init,
          pe_sigma m = Stochastic "sigma" logp init /\ logp 0 = None)
  /\ (forall covfunc tp np par_init verbose w m w',
        make_model_cov3par float_of_str fmt_3f fmt_s loglike_prh
          covfunc (PyStr "CSK") tp np par_init verbose w = (Ok m, w') ->
        exists logp init,
          c3_sigma m = Stochastic "sigma" logp init /\ logp 0 = None).
Proof.
  split; [exact sigma_logp_zero |]. split; [exact sigma_logp_None |]. split.
  - intros tp np verbose w m w' H.
    apply powexp_stages in H. destruct H as (_ & _ & w1 & w2 & Hsig & _).
    rewrite sigma_prior_CSK in Hsig. inversion Hsig.
    exists sigma_logp, (pe_ry m / 4). split; [reflexivity | exact sigma_logp_zero].
  - intros covfunc tp np par_init verbose w m w' H.
    apply cov3par_stages in H. destruct H as (_ & _ & w1 & w2 & Hsig & _).
    rewrite sigma_prior_CSK in Hsig. inversion Hsig.
    exists sigma_logp, (c3_ry m / 4). split; [reflexivity | exact sigma_logp_zero].
Qed.

(** C9. Under [use_sigprior == "None"] either builder declares the
    deterministic [sigma] over the uninformative [invsigsq], and its function
    is defined and positive at every real [invsigsq]: it is [1e6] when
    [|invsigsq| < 1e-6] and [1/sqrt(|invsigsq|)] otherwise, where the
    argument of the square root is positive and the divisor is not zero; the
    result always lies in (0, 1e6]. *)
Theorem sigma_none_transform_is_total_and_positive :
  (forall invsigsq,
      (Rabs invsigsq < 1e-6 -> sigma_of_invsigsq_guarded invsigsq = 1e6)
      /\ (~ Rabs invsigsq < 1e-6 ->
          0 < Rabs invsigsq /\ sqrt (Rabs invsigsq) <> 0
          /\ sigma_of_invsigsq_guarded invsigsq = 1 / sqrt (Rabs invsigsq))
      /\ 0 < sigma_of_invsigsq_guarded invsigsq <= 1e6)
  /\ (forall tp np verbose w m w',
        make_model_powexp float_of_str fmt_3f fmt_s loglike_prh
          (PyStr "None") tp np verbose w = (Ok m, w') ->
        let invsigsq := Uninformative "invsigsq" (1 / (pe_ry m / 4) ^ 2) in
        pe_invsigsq m = Some invsigsq
        /\ pe_sigma m = Deterministic "sigma" sigma_of_invsigsq_guarded invsigsq)
  /\ (forall covfunc tp np par_init verbose w m w',
        make_model_cov3par float_of_str fmt_3f fmt_s loglike_prh
          covfunc (PyStr "None") tp np par_init verbose w = (Ok m, w') ->
        let invsigsq := Uninformative "invsigsq" (1 / (c3_ry m / 4) ^ 2) in
        c3_invsigsq m = Some invsigsq
        /\ c3_sigma m = Deterministic "sigma" sigma_of_invsigsq_guarded invsigsq).
Proof.
  split; [| split].
  - intro invsigsq. split; [apply sigma_of_invsigsq_guarded_small |].
    split; [apply sigma_of_invsigsq_guarded_large |].
    apply sigma_of_invsigsq_guarded_bounds.
  - intros tp np verbose w m w' H.
    apply powexp_stages in H. destruct H as (_ & _ & w1 & w2 & Hsig & _).
    rewrite sigma_prior_None, invsigsq_init_eq in Hsig.
    inversion Hsig. split; reflexivity.
  - intros covfunc tp np par_init verbose w m w' H.
    apply cov3par_stages in H. destruct H as (_ & _ & w1 & w2 & Hsig & _).
    rewrite sigma_prior_None, invsigsq_init_eq in Hsig.
    inversion Hsig. split; reflexivity.
Qed.

End Stages.

(* ------------------------------------------------------------------ *)
(** ** The statements at work on the sample dataset *)

Lemma likelihood_node_calls_engine_once_witness :
  (exists m w',
      Sample.powexp (PyStr "CSK") (PyStr "CSK") (PyStr "Uniform") false Sample.world0 = (Ok m, w')
      /\ obs_logp (pe_model_powexp m) [7; 8; 9] 1 2 3 Sample.world0
         = (Ok (- (1 + 2 + 3)),
            after_loglike Sample.world0 (mk_PRH Sample.zydata (lit "pow_exp") 1 2 3)))
  /\ (exists m w',
         Sample.cov3par (lit "matern") (PyStr "CSK") (PyStr "CSK") (PyStr "Uniform") None false Sample.world0 = (Ok m, w')
         /\ obs_logp (c3_model_cov3par m) [7; 8; 9] 1 2 3 Sample.world0
            = (Ok (- (1 + 2 + 3)),
               after_loglike Sample.world0 (mk_PRH Sample.zydata (lit "matern") 1 2 3))).
Proof.
  destruct (likelihood_node_calls_engine_once
              Sample.float_of_str Sample.fmt Sample.fmt Sample.loglike_prh)
    as [Hp Hc].
  specialize (Hp (PyStr "CSK") (PyStr "CSK") (PyStr "Uniform") false Sample.world0 _ _ eq_refl).
  specialize (Hc (lit "matern") (PyStr "CSK") (PyStr "CSK") (PyStr "Uniform") None false Sample.world0 _ _ eq_refl).
  split; eexists; eexists; (split; [reflexivity |]).
  - apply (proj1 (proj2 Hp)).
  - apply (proj1 (proj2 Hc)).
Defined.

Lemma sample_rejects_names : rejects_names Sample.float_of_str.
Proof.
  intros s Hs. simpl in Hs.
  repeat (destruct Hs as [<- | Hs]; [reflexivity |]). destruct Hs.
Defined.

Lemma prior_dispatch_where_reached_witness :
  (marr (zydata_obj Sample.world0) <> []
   /\ unusable Sample.float_of_str sigma_names (PyStr "IG")
   /\ raises_RuntimeError
        (Sample.powexp (PyStr "IG") (PyStr "CSK") (PyStr "Uniform") false Sample.world0)
   /\ raises_RuntimeError
        (Sample.cov3par (lit "matern") (PyStr "IG") (PyStr "CSK") (PyStr "Uniform")
           None false Sample.world0)
   /\ raises_RuntimeError
        (Sample.cov3par (lit "gaussian") (PyStr "IG") (PyStr "CSK") (PyStr "Uniform")
           (Some [1; 2; 3]) false Sample.world0))
  /\ (rejects_names Sample.float_of_str
      /\ py_float Sample.float_of_str (PyStr "2.5") = Some 2.5
      /\ (exists w1, sigma_prior Sample.float_of_str Sample.fmt Sample.fmt
                       2 (PyStr "2.5") true Sample.world0
                     = (Ok (None, Fixed 2.5), w1))
      /\ (exists m w',
             Sample.powexp (PyStr "2.5") (PyFloat 3) (PyStr "2.5") true Sample.world0
             = (Ok m, w')
             /\ pe_sigma m = Fixed 2.5 /\ pe_tau m = Fixed 3 /\ pe_nu m = Fixed 2.5)).
Proof.
  assert (Hne : marr (zydata_obj Sample.world0) <> []) by discriminate.
  assert (Hbad : unusable Sample.float_of_str sigma_names (PyStr "IG"))
    by (split; reflexivity).
  split.
  - destruct (proj1 (prior_dispatch_where_reached
                       Sample.float_of_str Sample.fmt Sample.fmt Sample.loglike_prh
                       (PyStr "IG") (PyStr "CSK") (PyStr "Uniform") false Sample.world0)
                Hne (or_introl Hbad)) as [Hp Hc].
    split; [exact Hne |]. split; [exact Hbad |]. split; [exact Hp |]. split.
    + apply (Hc (lit "matern") None). reflexivity.
    + apply (Hc (lit "gaussian") (Some [1; 2; 3])). discriminate.
  - destruct (proj2 (prior_dispatch_where_reached
                       Sample.float_of_str Sample.fmt Sample.fmt Sample.loglike_prh
                       (PyStr "2.5") (PyFloat 3) (PyStr "2.5") true Sample.world0)
                sample_rejects_names) as (Hsig & _ & _ & Hp & _).
    split; [exact sample_rejects_names |]. split; [reflexivity |]. split.
    + apply Hsig. reflexivity.
    + specialize (Hp _ _ eq_refl). destruct Hp as (H1 & H2 & H3).
      eexists. eexists. split; [reflexivity |]. split; [| split].
      * apply H1. reflexivity.
      * apply H2. reflexivity.
      * apply H3. reflexivity.
Defined.

(** C2 as it is written claims a [RuntimeError] from [make_model_cov3par]
    for every unusable [use_sigprior].  With [use_sigprior] "IG", which is
    no sigma prior and no number, [covfunc] "gaussian" and [par_init] left at
    [None], the run ends at line 179, before the dispatch on
    [use_sigprior] is reached, and the exception is not a [RuntimeError]. *)
Lemma prior_dispatch_not_reached_counterexample :
  unusable Sample.float_of_str sigma_names (PyStr "IG")
  /\ Sample.cov3par (lit "gaussian") (PyStr "IG") (PyStr "CSK") (PyStr "Uniform")
       None false Sample.world0
     = (Raise (UnboundLocalError "nu_init"), Sample.world0)
  /\ ~ raises_RuntimeError
         (Sample.cov3par (lit "gaussian") (PyStr "IG") (PyStr "CSK") (PyStr "Uniform")
            None false Sample.world0).
Proof.
  assert (H : Sample.cov3par (lit "gaussian") (PyStr "IG") (PyStr "CSK")
                (PyStr "Uniform") None false Sample.world0
              = (Raise (UnboundLocalError "nu_init"), Sample.world0)).
  { apply cov3par_unknown_covfunc; [discriminate | reflexivity]. }
  split; [split; reflexivity |]. split; [exact H |].
  rewrite H. intros (msg & w' & E). discriminate.
Qed.

Lemma tau_csk_prior_witness :
  (1 < 2 < 10000 /\ tau_logp 1 2 = Some (Finite (- ln (2 / 1))))
  /\ (0 < 1 / 2 <= 1 /\ tau_logp 1 (1 / 2) = Some (Finite (- ln (1 / (1 / 2)))))
  /\ (~ 1 < 20000 < 10000 /\ ~ 0 < 20000 <= 1 /\ tau_logp 1 20000 = Some NegInf)
  /\ (0 < 1 /\ 0 < 1 / 2 < 10000
      /\ tau_logp 1 (1 / 2) = Some (Finite (- Rabs (ln (1 / 2 / 1)))))
  /\ (exists m w',
         Sample.powexp (PyStr "CSK") (PyStr "CSK") (PyStr "Uniform") false Sample.world0
         = (Ok m, w')
         /\ pe_tau m = Stochastic "tau" (tau_logp 1) (sqrt (100 * 1)))
  /\ (exists m w',
         Sample.cov3par (lit "pow_exp") (PyStr "CSK") (PyStr "CSK") (PyStr "Uniform")
           None false Sample.world0 = (Ok m, w')
         /\ c3_tau m = Stochastic "tau" (tau_logp 1) (sqrt (100 * 1))).
Proof.
  destruct (tau_csk_prior Sample.float_of_str Sample.fmt Sample.fmt Sample.loglike_prh)
    as (Hl & Hp & Hc).
  assert (H1 : 1 < 2 < 10000) by lra.
  assert (H2 : 0 < 1 / 2 <= 1) by lra.
  assert (H3 : ~ 1 < 20000 < 10000) by lra.
  assert (H4 : ~ 0 < 20000 <= 1) by lra.
  assert (H5 : 0 < 1) by lra.
  assert (H6 : 0 < 1 / 2 < 10000) by lra.
  split; [split; [exact H1 | exact (proj1 (Hl 1 2) H1)] |].
  split; [split; [exact H2 | exact (proj1 (proj2 (Hl 1 (1 / 2))) H2)] |].
  split; [split; [exact H3 | split; [exact H4 |
            exact (proj1 (proj2 (proj2 (Hl 1 20000))) H3 H4)]] |].
  split; [split; [exact H5 | split; [exact H6 |
            exact (proj2 (proj2 (proj2 (proj2 (Hl 1 (1 / 2)))) H5 H6))]] |].
  split; eexists; eexists; (split; [reflexivity |]).
  - exact (Hp (PyStr "CSK") (PyStr "Uniform") false Sample.world0 _ _ eq_refl).
  - exact (Hc (lit "pow_exp") (PyStr "CSK") (PyStr "Uniform") None false
             Sample.world0 _ _ eq_refl).
Defined.

Lemma sigma_csk_prior_witness :
  (0 < 2 /\ sigma_logp 2 = Some (Finite (- ln 2)))
  /\ (-3 < 0 /\ sigma_logp (-3) = Some NegInf)
  /\ (exists m w',
         Sample.powexp (PyStr "CSK") (PyStr "CSK") (PyStr "Uniform") false Sample.world0
         = (Ok m, w')
         /\ is_range (pe_ry m) [1; 3; 2]
         /\ pe_sigma m = Stochastic "sigma" sigma_logp (pe_ry m / 4))
  /\ (exists m w',
         Sample.cov3par (lit "pow_exp") (PyStr "CSK") (PyStr "CSK") (PyStr "Uniform")
           None false Sample.world0 = (Ok m, w')
         /\ is_range (c3_ry m) [1; 3; 2]
         /\ c3_sigma m = Stochastic "sigma" sigma_logp (c3_ry m / 4)).
Proof.
  destruct (sigma_csk_prior Sample.float_of_str Sample.fmt Sample.fmt Sample.loglike_prh)
    as (Hpos & Hneg & Hp & Hc).
  assert (H1 : 0 < 2) by lra.
  assert (H2 : -3 < 0) by lra.
  split; [split; [exact H1 | exact (Hpos 2 H1)] |].
  split; [split; [exact H2 | exact (Hneg (-3) H2)] |].
  split; eexists; eexists; (split; [reflexivity |]).
  - exact (Hp (PyStr "CSK") (PyStr "Uniform") false Sample.world0 _ _ eq_refl).
  - exact (Hc (lit "pow_exp") (PyStr "CSK") (PyStr "Uniform") None false
             Sample.world0 _ _ eq_refl).
Defined.

Lemma sigma_gamma_priors_witness :
  (0 < 4 /\ 0 < sqrt 4 /\ sigma_of_invsigsq 4 = 1 / sqrt 4)
  /\ (exists m w',
         Sample.powexp (PyStr "Vague") (PyStr "CSK") (PyStr "Uniform") false Sample.world0
         = (Ok m, w')
         /\ pe_invsigsq m = Some (Gamma "invsigsq" 0.001 0.001 (1 / (pe_ry m / 4) ^ 2)))
  /\ (exists m w',
         Sample.powexp (PyStr "Gamma") (PyStr "CSK") (PyStr "Uniform") false Sample.world0
         = (Ok m, w')
         /\ pe_invsigsq m
            = Some (Gamma "invsigsq" 2 (1 / (pe_ry m / 4) ^ 2) (1 / (pe_ry m / 4) ^ 2)))
  /\ (exists m w',
         Sample.cov3par (lit "matern") (PyStr "Vague") (PyStr "CSK") (PyStr "Uniform")
           None false Sample.world0 = (Ok m, w')
         /\ c3_sigma m
            = Deterministic "sigma" sigma_of_invsigsq
                (Gamma "invsigsq" 0.001 0.001 (1 / (c3_ry m / 4) ^ 2)))
  /\ (exists m w',
         Sample.cov3par (lit "matern") (PyStr "Gamma") (PyStr "CSK") (PyStr "Uniform")
           None false Sample.world0 = (Ok m, w')
         /\ c3_sigma m
            = Deterministic "sigma" sigma_of_invsigsq
                (Gamma "invsigsq" 2 (1 / (c3_ry m / 4) ^ 2) (1 / (c3_ry m / 4) ^ 2))).
Proof.
  destruct (sigma_gamma_priors Sample.float_of_str Sample.fmt Sample.fmt
              Sample.loglike_prh) as (Hf & Hp & Hc).
  assert (H1 : 0 < 4) by lra.
  split; [split; [exact H1 | exact (Hf 4 H1)] |].
  split; [| split; [| split]]; eexists; eexists; (split; [reflexivity |]).
  - exact (proj1 (proj2 (proj1 (Hp (PyStr "CSK") (PyStr "Uniform") false
                                  Sample.world0 _ _) eq_refl))).
  - exact (proj1 (proj2 (proj2 (Hp (PyStr "CSK") (PyStr "Uniform") false
                                  Sample.world0 _ _) eq_refl))).
  - exact (proj2 (proj2 (proj1 (Hc (lit "matern") (PyStr "CSK") (PyStr "Uniform") None
                                  false Sample.world0 _ _) eq_refl))).
  - exact (proj2 (proj2 (proj2 (Hc (lit "matern") (PyStr "CSK") (PyStr "Uniform") None
                                  false Sample.world0 _ _) eq_refl))).
Defined.

Lemma sigma_csk_logp_has_no_value_at_zero_witness :
  sigma_logp 0 = None
  /\ (exists m w',
         Sample.powexp (PyStr "CSK") (PyStr "CSK") (PyStr "Uniform") false Sample.world0
         = (Ok m, w')
         /\ exists logp init, pe_sigma m = Stochastic "sigma" logp init /\ logp 0 = None)
  /\ (exists m w',
         Sample.cov3par (lit "kepler_exp") (PyStr "CSK") (PyStr "CSK") (PyStr "Uniform")
           None false Sample.world0 = (Ok m, w')
         /\ exists logp init, c3_sigma m = Stochastic "sigma" logp init /\ logp 0 = None).
Proof.
  destruct (sigma_csk_logp_has_no_value_at_zero Sample.float_of_str Sample.fmt
              Sample.fmt Sample.loglike_prh) as (Hz & _ & Hp & Hc).
  split; [exact Hz |].
  split; eexists; eexists; (split; [reflexivity |]).
  - exact (Hp (PyStr "CSK") (PyStr "Uniform") false Sample.world0 _ _ eq_refl).
  - exact (Hc (lit "kepler_exp") (PyStr "CSK") (PyStr "Uniform") None false
             Sample.world0 _ _ eq_refl).
Defined.

Lemma sigma_none_transform_is_total_and_positive_witness :
  (Rabs 0 < 1e-6 /\ sigma_of_invsigsq_guarded 0 = 1e6)
  /\ (~ Rabs (-4) < 1e-6
      /\ sqrt (Rabs (-4)) <> 0
      /\ sigma_of_invsigsq_guarded (-4) = 1 / sqrt (Rabs (-4)))
  /\ (exists m w',
         Sample.powexp (PyStr "None") (PyStr "CSK") (PyStr "Uniform") false Sample.world0
         = (Ok m, w')
         /\ pe_sigma m
            = Deterministic "sigma" sigma_of_invsigsq_guarded
                (Uninformative "invsigsq" (1 / (pe_ry m / 4) ^ 2)))
  /\ (exists m w',
         Sample.cov3par (lit "pareto_exp") (PyStr "None") (PyStr "CSK") (PyStr "Uniform")
           None false Sample.world0 = (Ok m, w')
         /\ c3_sigma m
            = Deterministic "sigma" sigma_of_invsigsq_guarded
                (Uninformative "invsigsq" (1 / (c3_ry m / 4) ^ 2))).
Proof.
  destruct (sigma_none_transform_is_total_and_positive Sample.float_of_str Sample.fmt
              Sample.fmt Sample.loglike_prh) as (Hf & Hp & Hc).
  assert (H1 : Rabs 0 < 1e-6) by (rewrite Rabs_R0; lra).
  assert (H2 : ~ Rabs (-4) < 1e-6) by (rewrite Rabs_left; lra).
  split; [split; [exact H1 | exact (proj1 (Hf 0) H1)] |].
  split; [split; [exact H2 | exact (proj2 (proj1 (proj2 (Hf (-4))) H2))] |].
  split; eexists; eexists; (split; [reflexivity |]).
  - exact (proj2 (Hp (PyStr "CSK") (PyStr "Uniform") false Sample.world0 _ _ eq_refl)).
  - exact (proj2 (Hc (lit "pareto_exp") (PyStr "CSK") (PyStr "Uniform") None false
                    Sample.world0 _ _ eq_refl)).
Defined.

(* ------------------------------------------------------------------ *)
(** ** Further properties of the builders *)

Lemma returns_not_raises {A} (r : result A * world) :
  returns r -> raises_RuntimeError r -> False.
Proof. intros (a & w1 & H1) (msg & w2 & H2). congruence. Qed.

Lemma usable_or_unusable (float_of_str : string -> option R)
  (names : list string) (v : pyval) :
  usable float_of_str names v \/ unusable float_of_str names v.
Proof.
  unfold usable, unusable. destruct (named names v); [left; now left |].
  destruct (py_float float_of_str v).
  - left. right. discriminate.
  - right. split; reflexivity.
Qed.

Section Outcomes.

Variable float_of_str : string -> option R.
Variables fmt_3f fmt_s : R -> string.
Variable loglike_prh : PRH -> R * list R.

Lemma sigma_prior_Ok_usable (ry : R) (v : pyval) (verbose : bool) (w w1 : world)
  (sig : option node * node) :
  sigma_prior float_of_str fmt_3f fmt_s ry v verbose w = (Ok sig, w1) ->
  usable float_of_str sigma_names v.
Proof.
  intro H. destruct (usable_or_unusable float_of_str sigma_names v) as [U | U]; [exact U |].
  exfalso. apply (returns_not_raises (sigma_prior float_of_str fmt_3f fmt_s ry v verbose w)).
  - exists sig, w1. exact H.
  - now apply sigma_prior_unusable.
Qed.

Lemma tau_prior_Ok_usable (rx cadence : R) (v : pyval) (verbose : bool) (w w1 : world)
  (tau : node) :
  tau_prior float_of_str fmt_3f fmt_s rx cadence v verbose w = (Ok tau, w1) ->
  usable float_of_str tau_names v.
Proof.
  intro H. destruct (usable_or_unusable float_of_str tau_names v) as [U | U]; [exact U |].
  exfalso.
  apply (returns_not_raises (tau_prior float_of_str fmt_3f fmt_s rx cadence v verbose w)).
  - exists tau, w1. exact H.
  - now apply tau_prior_unusable.
Qed.

Lemma nu_prior_powexp_Ok_usable (v : pyval) (verbose : bool) (w w1 : world) (nu : node) :
  nu_prior_powexp float_of_str fmt_3f fmt_s v verbose w = (Ok nu, w1) ->
  usable float_of_str nu_names v.
Proof.
  intro H. destruct (usable_or_unusable float_of_str nu_names v) as [U | U]; [exact U |].
  exfalso.
  apply (returns_not_raises (nu_prior_powexp float_of_str fmt_3f fmt_s v verbose w)).
  - exists nu, w1. exact H.
  - now apply nu_prior_powexp_unusable.
Qed.

(** X1. Whenever [make_model_powexp] returns, the dataset has at least one
    magnitude and each of the three prior arguments is a name its dispatch
    knows or a value [float()] converts. *)
Theorem powexp_returns_only_if :
  forall sp tp np verbose w m w',
    make_model_powexp float_of_str fmt_3f fmt_s loglike_prh sp tp np verbose w
    = (Ok m, w') ->
    marr (zydata_obj w) <> []
    /\ usable float_of_str sigma_names sp
    /\ usable float_of_str tau_names tp
    /\ usable float_of_str nu_names np.
Proof.
  intros sp tp np verbose w m w' H. apply make_model_powexp_Ok in H.
  destruct H as (Hne & sig & w1 & tau & w2 & nu & Hsig & Htau & Hnu & _).
  split; [exact Hne |]. split; [| split].
  - exact (sigma_prior_Ok_usable _ _ _ _ _ _ Hsig).
  - exact (tau_prior_Ok_usable _ _ _ _ _ _ _ Htau).
  - exact (nu_prior_powexp_Ok_usable _ _ _ _ _ Hnu).
Qed.

Lemma nu_prior_cov3par_returns_iff (lim : option (R * R)) (init : option R)
  (v : pyval) (verbose : bool) (w : world) :
  returns (nu_prior_cov3par float_of_str fmt_3f fmt_s lim init v verbose w)
  <-> (if v ==s "Uniform" then lim <> None /\ init <> None
       else py_float float_of_str v <> None).
Proof.
  unfold nu_prior_cov3par. destruct (v ==s "Uniform").
  - destruct lim as [[lo hi] |], init as [i |]; simpl; split.
    + intros _. split; discriminate.
    + intros _. eexists. eexists. reflexivity.
    + intros (a & w1 & H). discriminate.
    + intros [_ H]. congruence.
    + intros (a & w1 & H). discriminate.
    + intros [H _]. congruence.
    + intros (a & w1 & H). discriminate.
    + intros [H _]. congruence.
  - split.
    + intros (a & w1 & H) E. rewrite (fixed_prior_None _ _ _ _ _ _ _ E) in H. discriminate.
    + intro H. destruct (py_float float_of_str v) as [x |] eqn:E; [| congruence].
      destruct (fixed_prior_Some float_of_str fmt_3f fmt_s "nu" v verbose x w E)
        as (w1 & H1 & _).
      exists (Fixed x), w1. exact H1.
Qed.

(** X2. Whenever [make_model_cov3par] returns, the dataset has at least
    one magnitude, [covfunc] is one of the four literals unless [par_init]
    was supplied, the sigma and tau arguments are a known name or a number,
    and the nu argument is either a number or "Uniform" with [covfunc] one
    of the four literals and [par_init] left at [None]. *)
Theorem cov3par_returns_only_if :
  forall covfunc sp tp np par_init verbose w m w',
    make_model_cov3par float_of_str fmt_3f fmt_s loglike_prh
      covfunc sp tp np par_init verbose w = (Ok m, w') ->
    marr (zydata_obj w) <> []
    /\ (par_init = None -> known_covfunc covfunc = true)
    /\ usable float_of_str sigma_names sp
    /\ usable float_of_str tau_names tp
    /\ nu_accepted float_of_str covfunc par_init np.
Proof.
  intros covfunc sp tp np par_init verbose w m w' H. unfold nu_accepted.
  apply make_model_cov3par_Ok in H.
  destruct H as (Hne & inits & sig & w1 & tau & w2 & nu & Hin & Hsig & Htau & Hnu & _).
  assert (Hcov : par_init = None -> known_covfunc covfunc = true).
  { intros ->. apply nu_init_of_known. intro E.
    rewrite (init_values_unknown _ _ _ _ w E) in Hin. discriminate. }
  split; [exact Hne |]. split; [exact Hcov |]. split; [| split].
  - exact (sigma_prior_Ok_usable _ _ _ _ _ _ Hsig).
  - exact (tau_prior_Ok_usable _ _ _ _ _ _ _ Htau).
  - assert (Hr : returns (nu_prior_cov3par float_of_str fmt_3f fmt_s
                           (nu_limits_of covfunc) (snd (fst inits)) np verbose w2))
      by (exists nu, w'; exact Hnu).
    apply nu_prior_cov3par_returns_iff in Hr.
    destruct (np ==s "Uniform"); [| exact Hr].
    destruct Hr as [Hl Hi]. split; [now apply nu_limits_of_known |].
    destruct par_init as [given |]; [| reflexivity].
    rewrite init_values_given in Hin. inversion Hin; subst. now elim Hi.
Qed.

(** X3. On a dataset whose [marr] is empty both builders stop at
    [zydata.marr.max()] with a [ValueError], whatever the other arguments,
    and leave the world as it was. *)
Theorem empty_dataset_is_refused :
  forall sp tp np verbose w,
    marr (zydata_obj w) = [] ->
    exists msg,
      raises_in (make_model_powexp float_of_str fmt_3f fmt_s loglike_prh
                   sp tp np verbose w) (ValueError msg) w
      /\ forall covfunc par_init,
          raises_in (make_model_cov3par float_of_str fmt_3f fmt_s loglike_prh
                       covfunc sp tp np par_init verbose w) (ValueError msg) w.
Proof.
  intros sp tp np verbose w He.
  destruct (light_curve_stat_empty w He) as [msg Hm]. exists msg. split.
  - unfold raises_in, make_model_powexp. now apply bind_Raise.
  - intros covfunc par_init. unfold raises_in, make_model_cov3par. now apply bind_Raise.
Qed.

Lemma fixed_prior_run (par : string) (v : pyval) (verbose : bool) (x : R) (w : world) :
  py_float float_of_str v = Some x ->
  fixed_prior float_of_str fmt_3f fmt_s par v verbose w
  = (Ok (Fixed x),
     if verbose then printed w (par ++ " is fixed to be " ++ fmt_3f x) else w).
Proof. intro H. unfold fixed_prior. rewrite H. destruct verbose; reflexivity. Qed.

Lemma sigma_prior_refuses (ry : R) (v : pyval) (verbose : bool) (w : world) :
  unusable float_of_str sigma_names v ->
  sigma_prior float_of_str fmt_3f fmt_s ry v verbose w
  = (Raise (RuntimeError ("no such prior for sigma " ++ py_str fmt_s v)), w).
Proof.
  intros [Hn Hf]. rewrite (sigma_prior_unnamed _ _ _ ry v verbose Hn).
  apply bind_Raise. apply (fixed_prior_None _ _ _ "sigma" v verbose w Hf).
Qed.

Lemma tau_prior_refuses (rx cadence : R) (v : pyval) (verbose : bool) (w : world) :
  unusable float_of_str tau_names v ->
  tau_prior float_of_str fmt_3f fmt_s rx cadence v verbose w
  = (Raise (RuntimeError ("no such prior for tau " ++ py_str fmt_s v)), w).
Proof.
  intros [Hn Hf]. rewrite (tau_prior_unnamed _ _ _ rx cadence v verbose Hn).
  apply (fixed_prior_None _ _ _ "tau" v verbose w Hf).
Qed.

Lemma nu_prior_powexp_refuses (v : pyval) (verbose : bool) (w : world) :
  unusable float_of_str nu_names v ->
  nu_prior_powexp float_of_str fmt_3f fmt_s v verbose w
  = (Raise (RuntimeError ("no such prior for nu " ++ py_str fmt_s v)), w).
Proof.
  intros [Hn Hf]. rewrite (nu_prior_powexp_unnamed _ _ _ v verbose Hn).
  apply (fixed_prior_None _ _ _ "nu" v verbose w Hf).
Qed.

Lemma nu_prior_cov3par_refuses (lim : option (R * R)) (init : option R)
  (v : pyval) (verbose : bool) (w : world) :
  unusable float_of_str nu_names v ->
  nu_prior_cov3par float_of_str fmt_3f fmt_s lim init v verbose w
  = (Raise (RuntimeError ("no such prior for nu " ++ py_str fmt_s v)), w).
Proof.
  intros [Hn Hf]. rewrite (nu_prior_cov3par_unnamed _ _ _ lim init v verbose Hn).
  apply (fixed_prior_None _ _ _ "nu" v verbose w Hf).
Qed.

(** X4. The [RuntimeError] of [make_model_powexp] names the first argument,
    in the order sigma, tau, nu, that is neither a known name nor a number,
    and quotes it: "no such prior for sigma <value>" when [use_sigprior] is
    the one, with the world untouched, whatever [use_tauprior] and
    [use_nuprior] are; the tau message when sigma is acceptable and tau is
    not; the nu message when only nu is not. *)
Theorem powexp_reports_first_unusable_prior :
  forall sp tp np verbose w,
    marr (zydata_obj w) <> [] ->
    (unusable float_of_str sigma_names sp ->
     raises_in (make_model_powexp float_of_str fmt_3f fmt_s loglike_prh sp tp np verbose w)
       (RuntimeError ("no such prior for sigma " ++ py_str fmt_s sp)) w)
    /\ (usable float_of_str sigma_names sp -> unusable float_of_str tau_names tp ->
        exists w1,
          raises_in (make_model_powexp float_of_str fmt_3f fmt_s loglike_prh
                       sp tp np verbose w)
            (RuntimeError ("no such prior for tau " ++ py_str fmt_s tp)) w1)
    /\ (usable float_of_str sigma_names sp -> usable float_of_str tau_names tp ->
        unusable float_of_str nu_names np ->
        exists w1,
          raises_in (make_model_powexp float_of_str fmt_3f fmt_s loglike_prh
                       sp tp np verbose w)
            (RuntimeError ("no such prior for nu " ++ py_str fmt_s np)) w1).
Proof.
  intros sp tp np verbose w Hne. unfold raises_in.
  rewrite (make_model_powexp_run float_of_str fmt_3f fmt_s loglike_prh
             sp tp np verbose w Hne).
  split; [| split].
  - intro Hs. apply bind_Raise. now apply sigma_prior_refuses.
  - intros Hs Ht.
    destruct (sigma_prior_usable float_of_str fmt_3f fmt_s
                (range_of (marr (zydata_obj w))) sp verbose w Hs) as (sig & w1 & Hsig).
    exists w1. rewrite (bind_Ok _ _ _ _ _ Hsig).
    apply bind_Raise. now apply tau_prior_refuses.
  - intros Hs Ht Hn.
    destruct (sigma_prior_usable float_of_str fmt_3f fmt_s
                (range_of (marr (zydata_obj w))) sp verbose w Hs) as (sig & w1 & Hsig).
    destruct (tau_prior_usable float_of_str fmt_3f fmt_s (rj (zydata_obj w))
                (cont_cad (zydata_obj w)) tp verbose w1 Ht) as (tau & w2 & Htau).
    exists w2. rewrite (bind_Ok _ _ _ _ _ Hsig), (bind_Ok _ _ _ _ _ Htau).
    apply bind_Raise. now apply nu_prior_powexp_refuses.
Qed.

(** X5. In [make_model_cov3par] a [par_init] supplied by the caller cannot
    be combined with [use_nuprior == "Uniform"]: [nu_init] is assigned only
    under [par_init is None], so with acceptable sigma and tau arguments the
    builder ends at line 262 with an unbound local, [nu_init] when [covfunc]
    is one of the four literals and [nu_min] when it is not. *)
Theorem cov3par_given_par_init_excludes_uniform_nu :
  forall covfunc sp tp given verbose w,
    marr (zydata_obj w) <> [] ->
    usable float_of_str sigma_names sp ->
    usable float_of_str tau_names tp ->
    exists w1,
      raises_in (make_model_cov3par float_of_str fmt_3f fmt_s loglike_prh
                   covfunc sp tp (PyStr "Uniform") (Some given) verbose w)
        (UnboundLocalError (if known_covfunc covfunc then "nu_init" else "nu_min")) w1.
Proof.
  intros covfunc sp tp given verbose w Hne Hs Ht. unfold raises_in.
  rewrite (make_model_cov3par_run float_of_str fmt_3f fmt_s loglike_prh
             covfunc sp tp (PyStr "Uniform") (Some given) verbose w Hne).
  rewrite (bind_Ok _ _ _ _ _ (init_values_given _ _ _ covfunc given w)).
  destruct (sigma_prior_usable float_of_str fmt_3f fmt_s
              (range_of (marr (zydata_obj w))) sp verbose w Hs) as (sig & w1 & Hsig).
  destruct (tau_prior_usable float_of_str fmt_3f fmt_s (rj (zydata_obj w))
              (cont_cad (zydata_obj w)) tp verbose w1 Ht) as (tau & w2 & Htau).
  exists w2. rewrite (bind_Ok _ _ _ _ _ Hsig), (bind_Ok _ _ _ _ _ Htau).
  apply bind_Raise. simpl.
  destruct (known_covfunc covfunc) eqn:Ek.
  - pose proof (proj1 (nu_limits_of_known covfunc) Ek) as Hl.
    destruct (nu_limits_of covfunc) as [[lo hi] |]; [reflexivity | congruence].
  - destruct (nu_limits_of covfunc) as [[lo hi] |] eqn:El; [| reflexivity].
    assert (known_covfunc covfunc = true) by (apply nu_limits_of_known; congruence).
    congruence.
Qed.

(** X6. [make_model_cov3par] has no check of [covfunc] of its own.
    Whenever it returns although [covfunc] is none of the four literals,
    [par_init] was supplied by the caller and is the [guess] and the value of
    the observed node, nu is a plain number given as [use_nuprior], no
    initial value and no limits of nu were set, and the observed node hands
    the unrecognised [covfunc] to the engine. *)
Theorem cov3par_returned_with_unrecognised_covfunc :
  forall covfunc sp tp np par_init verbose w m w',
    known_covfunc covfunc = false ->
    make_model_cov3par float_of_str fmt_3f fmt_s loglike_prh
      covfunc sp tp np par_init verbose w = (Ok m, w') ->
    par_init = Some (c3_guess m)
    /\ obs_value (c3_model_cov3par m) = c3_guess m
    /\ (exists x, py_float float_of_str np = Some x /\ c3_nu m = Fixed x)
    /\ c3_nu_init m = None
    /\ c3_nu_limits m = None
    /\ forall value sigma tau nu w1,
        obs_logp (c3_model_cov3par m) value sigma tau nu w1
        = (Ok (fst (loglike_prh (mk_PRH (zydata_obj w1) covfunc sigma tau nu))),
           after_loglike w1 (mk_PRH (zydata_obj w1) covfunc sigma tau nu)).
Proof.
  intros covfunc sp tp np par_init verbose w m w' Hk H.
  apply make_model_cov3par_Ok in H.
  destruct H as (_ & inits & sig & w1 & tau & w2 & nu & Hin & _ & _ & Hnu & ->).
  assert (Hi : nu_init_of covfunc = None).
  { destruct (nu_init_of covfunc) eqn:E; [| reflexivity].
    assert (known_covfunc covfunc = true) by (apply nu_init_of_known; congruence).
    congruence. }
  assert (Hl : nu_limits_of covfunc = None).
  { destruct (nu_limits_of covfunc) eqn:E; [| reflexivity].
    assert (known_covfunc covfunc = true) by (apply nu_limits_of_known; congruence).
    congruence. }
  destruct par_init as [given |].
  2:{ rewrite (init_values_unknown _ _ _ _ w Hi) in Hin. discriminate. }
  rewrite init_values_given in Hin. inversion Hin; subst. clear Hin.
  cbn [fst snd] in Hnu |- *. rewrite Hl in Hnu |- *.
  cbn [c3_guess c3_model_cov3par obs_value c3_nu c3_nu_init c3_nu_limits obs_logp].
  split; [reflexivity |]. split; [reflexivity |]. split.
  - unfold nu_prior_cov3par in Hnu. destruct (np ==s "Uniform"); [discriminate |].
    unfold fixed_prior in Hnu.
    destruct (py_float float_of_str np) as [x |]; [| discriminate].
    exists x. split; [reflexivity |].
    apply bind_Ok_inv in Hnu. destruct Hnu as (u & w3 & _ & Hret).
    unfold ret in Hret. now inversion Hret.
  - split; [reflexivity |]. split; [reflexivity |].
    intros. apply model_cov3par_run.
Qed.

(** A computation that leaves the whole world as it found it. *)
Lemma silent_bind {A B} (c : Py A) (k : A -> Py B) :
  (forall w, snd (c w) = w) -> (forall a w, snd (k a w) = w) ->
  forall w, snd (bind c k w) = w.
Proof.
  intros Hc Hk w. unfold bind. specialize (Hc w).
  destruct (c w) as [[a | e] w1]; simpl in Hc; subst w1; [apply Hk | reflexivity].
Qed.

Lemma silent_fixed_prior (par : string) (v : pyval) (w : world) :
  snd (fixed_prior float_of_str fmt_3f fmt_s par v false w) = w.
Proof. unfold fixed_prior. destruct (py_float float_of_str v); reflexivity. Qed.

Lemma silent_sigma_prior (ry : R) (v : pyval) (w : world) :
  snd (sigma_prior float_of_str fmt_3f fmt_s ry v false w) = w.
Proof.
  unfold sigma_prior.
  repeat match goal with
         | |- context [if ?b then _ else _] => destruct b; [reflexivity |]
         end.
  apply silent_bind; [apply silent_fixed_prior | reflexivity].
Qed.

Lemma silent_tau_prior (rx cadence : R) (v : pyval) (w : world) :
  snd (tau_prior float_of_str fmt_3f fmt_s rx cadence v false w) = w.
Proof.
  unfold tau_prior.
  repeat match goal with
         | |- context [if ?b then _ else _] => destruct b; [reflexivity |]
         end.
  apply silent_fixed_prior.
Qed.

Lemma silent_nu_prior_powexp (v : pyval) (w : world) :
  snd (nu_prior_powexp float_of_str fmt_3f fmt_s v false w) = w.
Proof.
  unfold nu_prior_powexp. destruct (v ==s "Uniform"); [reflexivity |].
  apply silent_fixed_prior.
Qed.

Lemma silent_nu_prior_cov3par (lim : option (R * R)) (init : option R)
  (v : pyval) (w : world) :
  snd (nu_prior_cov3par float_of_str fmt_3f fmt_s lim init v false w) = w.
Proof.
  unfold nu_prior_cov3par. destruct (v ==s "Uniform").
  - destruct lim as [[lo hi] |], init; reflexivity.
  - apply silent_fixed_prior.
Qed.

Lemma silent_light_curve_stat (w : world) : snd (light_curve_stat w) = w.
Proof.
  destruct (marr (zydata_obj w)) as [| x a] eqn:E.
  - destruct (light_curve_stat_empty w E) as [msg ->]. reflexivity.
  - rewrite light_curve_stat_run; [reflexivity | congruence].
Qed.

Lemma silent_init_values (rx cadence ry : R) (covfunc : pystr)
  (par_init : option (list R)) (w : world) :
  snd (init_values rx cadence ry covfunc par_init w) = w.
Proof.
  unfold init_values. destruct par_init; [reflexivity |].
  destruct (nu_init_of covfunc); reflexivity.
Qed.

Lemma silent_sigma_prior_named (ry : R) (v : pyval) (verbose : bool) (w : world) :
  named sigma_names v = true ->
  snd (sigma_prior float_of_str fmt_3f fmt_s ry v verbose w) = w.
Proof.
  intro H. unfold sigma_prior. unfold named, sigma_names in H. simpl in H.
  repeat match goal with
         | |- context [if ?b then _ else _] => destruct b; [reflexivity |]
         end.
  discriminate.
Qed.

Lemma silent_tau_prior_named (rx cadence : R) (v : pyval) (verbose : bool) (w : world) :
  named tau_names v = true ->
  snd (tau_prior float_of_str fmt_3f fmt_s rx cadence v verbose w) = w.
Proof.
  intro H. unfold tau_prior. unfold named, tau_names in H. simpl in H.
  repeat match goal with
         | |- context [if ?b then _ else _] => destruct b; [reflexivity |]
         end.
  discriminate.
Qed.

Lemma silent_nu_prior_powexp_named (v : pyval) (verbose : bool) (w : world) :
  named nu_names v = true ->
  snd (nu_prior_powexp float_of_str fmt_3f fmt_s v verbose w) = w.
Proof.
  intro H. unfold nu_prior_powexp. unfold named, nu_names in H. simpl in H.
  destruct (v ==s "Uniform"); [reflexivity | discriminate].
Qed.

Lemma silent_nu_prior_cov3par_named (lim : option (R * R)) (init : option R)
  (v : pyval) (verbose : bool) (w : world) :
  named nu_names v = true ->
  snd (nu_prior_cov3par float_of_str fmt_3f fmt_s lim init v verbose w) = w.
Proof.
  intro H. unfold nu_prior_cov3par. unfold named, nu_names in H. simpl in H.
  destruct (v ==s "Uniform"); [| discriminate].
  destruct lim as [[lo hi] |], init; reflexivity.
Qed.

(** X7. The builders print under [set_verbose] only, and then only for an
    argument taken as a number: without [set_verbose] the printed output
    after the run is the printed output before it, however the run ends,
    and so it is under [set_verbose] when all three prior arguments are
    names their dispatch knows. *)
Theorem builders_print_only_for_fixed_values_under_set_verbose :
  forall sp tp np w,
    (stdout (snd (make_model_powexp float_of_str fmt_3f fmt_s loglike_prh
                    sp tp np false w)) = stdout w
     /\ forall covfunc par_init,
         stdout (snd (make_model_cov3par float_of_str fmt_3f fmt_s loglike_prh
                        covfunc sp tp np par_init false w)) = stdout w)
    /\ (named sigma_names sp = true -> named tau_names tp = true ->
        named nu_names np = true ->
        forall verbose,
          stdout (snd (make_model_powexp float_of_str fmt_3f fmt_s loglike_prh
                         sp tp np verbose w)) = stdout w
          /\ forall covfunc par_init,
              stdout (snd (make_model_cov3par float_of_str fmt_3f fmt_s loglike_prh
                             covfunc sp tp np par_init verbose w)) = stdout w).
Proof.
  intros sp tp np w. split.
  - split; [| intros covfunc par_init]; f_equal.
    + unfold make_model_powexp.
      apply silent_bind; [apply silent_light_curve_stat | intros [[cadence rx] ry] w0].
      apply silent_bind; [apply silent_sigma_prior | intros sig w1].
      apply silent_bind; [apply silent_tau_prior | intros tau w2].
      apply silent_bind; [apply silent_nu_prior_powexp | reflexivity].
    + unfold make_model_cov3par.
      apply silent_bind; [apply silent_light_curve_stat | intros [[cadence rx] ry] w0].
      apply silent_bind; [apply silent_init_values | intros [[[si ti] ni] pi] w1].
      apply silent_bind; [apply silent_sigma_prior | intros sig w2].
      apply silent_bind; [apply silent_tau_prior | intros tau w3].
      apply silent_bind; [apply silent_nu_prior_cov3par | reflexivity].
  - intros Hs Ht Hn verbose. split; [| intros covfunc par_init]; f_equal.
    + unfold make_model_powexp.
      apply silent_bind; [apply silent_light_curve_stat | intros [[cadence rx] ry] w0].
      apply silent_bind; [intro; now apply silent_sigma_prior_named | intros sig w1].
      apply silent_bind; [intro; now apply silent_tau_prior_named | intros tau w2].
      apply silent_bind; [intro; now apply silent_nu_prior_powexp_named | reflexivity].
    + unfold make_model_cov3par.
      apply silent_bind; [apply silent_light_curve_stat | intros [[cadence rx] ry] w0].
      apply silent_bind; [apply silent_init_values | intros [[[si ti] ni] pi] w1].
      apply silent_bind; [intro; now apply silent_sigma_prior_named | intros sig w2].
      apply silent_bind; [intro; now apply silent_tau_prior_named | intros tau w3].
      apply silent_bind; [intro; now apply silent_nu_prior_cov3par_named | reflexivity].
Qed.

(** X8. Under [set_verbose], [make_model_powexp] with three arguments that
    [float()] converts prints one line per parameter, in the order sigma,
    tau, nu, each giving the number in the "%.3f" format, and returns the
    three numbers as sigma, tau and nu. *)
Theorem powexp_verbose_prints_three_lines :
  forall sp tp np w x y z,
    marr (zydata_obj w) <> [] ->
    rejects_names float_of_str ->
    py_float float_of_str sp = Some x ->
    py_float float_of_str tp = Some y ->
    py_float float_of_str np = Some z ->
    exists m,
      make_model_powexp float_of_str fmt_3f fmt_s loglike_prh sp tp np true w
      = (Ok m, {| zydata_obj := zydata_obj w;
                  stdout := (stdout w
                             ++ [("sigma is fixed to be " ++ fmt_3f x)%string;
                                 ("tau is fixed to be " ++ fmt_3f y)%string;
                                 ("nu is fixed to be " ++ fmt_3f z)%string])%list;
                  prh_calls := prh_calls w |})
      /\ (pe_sigma m, pe_tau m, pe_nu m) = (Fixed x, Fixed y, Fixed z)
      /\ pe_invsigsq m = None.
Proof.
  intros sp tp np w x y z Hne Hrej Hx Hy Hz.
  pose proof (float_not_named float_of_str _ _ _ (rejects_sigma_names _ Hrej) Hx) as Ns.
  pose proof (float_not_named float_of_str _ _ _ (rejects_tau_names _ Hrej) Hy) as Nt.
  pose proof (float_not_named float_of_str _ _ _ (rejects_nu_names _ Hrej) Hz) as Nn.
  rewrite (make_model_powexp_run float_of_str fmt_3f fmt_s loglike_prh
             sp tp np true w Hne).
  rewrite (sigma_prior_unnamed float_of_str fmt_3f fmt_s _ sp true Ns).
  unfold bind at 1. unfold bind at 1.
  rewrite (fixed_prior_run "sigma" sp true x w Hx).
  rewrite (tau_prior_unnamed float_of_str fmt_3f fmt_s _ _ tp true Nt).
  rewrite (nu_prior_powexp_unnamed float_of_str fmt_3f fmt_s np true Nn).
  unfold bind. simpl.
  rewrite (fixed_prior_run "tau" tp true y _ Hy).
  rewrite (fixed_prior_run "nu" np true z _ Hz).
  eexists. split.
  - unfold ret, printed. simpl. rewrite <- !app_assoc. reflexivity.
  - split; reflexivity.
Qed.

Lemma py_is_chars (a : pystr) (s : string) : py_is a s = true -> chars a = s.
Proof.
  unfold py_is. intro H. apply andb_prop in H. destruct H as [_ H].
  now apply String.eqb_eq.
Qed.

(** X9. At [covfunc] the literal "pow_exp" with [par_init] left at [None],
    [make_model_cov3par] returns whenever [make_model_powexp] does on the
    same arguments, in the same world, with the same sigma, tau and
    [invsigsq] and an observed node whose log-probability is the same
    function.  The two differ in the uniform nu, declared on (0, 2) by the
    first builder and on (0, 1.999) by the second, and in the order of
    [guess]: tau comes first in the one, sigma in the other. *)
Theorem cov3par_at_pow_exp_agrees_with_powexp :
  forall sp tp np verbose w m w',
    make_model_powexp float_of_str fmt_3f fmt_s loglike_prh sp tp np verbose w
    = (Ok m, w') ->
    exists m3,
      make_model_cov3par float_of_str fmt_3f fmt_s loglike_prh
        (lit "pow_exp") sp tp np None verbose w = (Ok m3, w')
      /\ (c3_sigma m3, c3_tau m3, c3_invsigsq m3) = (pe_sigma m, pe_tau m, pe_invsigsq m)
      /\ (if np ==s "Uniform"
          then pe_nu m = Uniform "nu" 0 2 1 /\ c3_nu m3 = Uniform "nu" 0 1.999 1
          else c3_nu m3 = pe_nu m)
      /\ (forall value sigma tau nu w1,
             obs_logp (c3_model_cov3par m3) value sigma tau nu w1
             = obs_logp (pe_model_powexp m) value sigma tau nu w1)
      /\ pe_guess m = [sqrt (pe_rx m * pe_cadence m); pe_ry m / 4; 1]
      /\ c3_guess m3 = [pe_ry m / 4; sqrt (pe_rx m * pe_cadence m); 1].
Proof.
  intros sp tp np verbose w m w' H.
  apply make_model_powexp_Ok in H.
  destruct H as (Hne & sig & w1 & tau & w2 & nu & Hsig & Htau & Hnu & ->).
  rewrite (make_model_cov3par_run float_of_str fmt_3f fmt_s loglike_prh
             (lit "pow_exp") sp tp np None verbose w Hne).
  rewrite (bind_Ok _ _ _ _ _
             (init_values_known _ _ _ (lit "pow_exp") 1.0 w eq_refl)).
  rewrite (bind_Ok _ _ _ _ _ Hsig), (bind_Ok _ _ _ _ _ Htau).
  cbn [fst snd].
  assert (Hnu3 : exists nu3,
             nu_prior_cov3par float_of_str fmt_3f fmt_s (nu_limits_of (lit "pow_exp"))
               (Some 1.0) np verbose w2 = (Ok nu3, w')
             /\ if np ==s "Uniform"
                then nu = Uniform "nu" 0 2 1 /\ nu3 = Uniform "nu" 0 1.999 1
                else nu3 = nu).
  { unfold nu_prior_cov3par, nu_prior_powexp in *.
    destruct (np ==s "Uniform").
    - unfold ret in Hnu. inversion Hnu; subst. eexists. split; [reflexivity |].
      rewrite lit_1, lit_0. split; reflexivity.
    - exists nu. split; [exact Hnu | reflexivity]. }
  destruct Hnu3 as (nu3 & Hnu3 & Hcmp).
  rewrite (bind_Ok _ _ _ _ _ Hnu3).
  eexists. split; [reflexivity |]. cbn [c3_sigma c3_tau c3_invsigsq c3_nu c3_guess
    c3_model_cov3par pe_sigma pe_tau pe_invsigsq pe_nu pe_guess pe_model_powexp
    pe_rx pe_ry pe_cadence obs_logp].
  split; [reflexivity |]. split; [exact Hcmp |]. split; [| split].
  - intros. now rewrite model_cov3par_run, model_powexp_run.
  - unfold np_sqrt. rewrite lit_4, lit_1. reflexivity.
  - unfold np_sqrt. rewrite lit_4, lit_1. reflexivity.
Qed.

(** X10. Whenever a builder declares the uniform nu, its initial value lies
    strictly between the two limits of the prior: 0 < 1 < 2 in
    [make_model_powexp], and in [make_model_cov3par] the row of the table
    that goes with the characters of [covfunc]. *)
Theorem uniform_nu_starts_inside_its_limits :
  (forall sp tp verbose w m w',
      make_model_powexp float_of_str fmt_3f fmt_s loglike_prh
        sp tp (PyStr "Uniform") verbose w = (Ok m, w') ->
      exists lo hi v, pe_nu m = Uniform "nu" lo hi v /\ lo < v < hi)
  /\ (forall covfunc sp tp par_init verbose w m w',
         make_model_cov3par float_of_str fmt_3f fmt_s loglike_prh
           covfunc sp tp (PyStr "Uniform") par_init verbose w = (Ok m, w') ->
         exists lo hi v,
           c3_nu m = Uniform "nu" lo hi v /\ lo < v < hi
           /\ In (chars covfunc, (v, (lo, hi))) covfunc_table).
Proof.
  split.
  - intros sp tp verbose w m w' H. apply make_model_powexp_Ok in H.
    destruct H as (_ & sig & w1 & tau & w2 & nu & _ & _ & Hnu & ->).
    unfold nu_prior_powexp in Hnu. simpl in Hnu. unfold ret in Hnu. inversion Hnu.
    exists 0, 2, 1.0. split; [reflexivity | lra].
  - intros covfunc sp tp par_init verbose w m w' H. apply make_model_cov3par_Ok in H.
    destruct H as (_ & inits & sig & w1 & tau & w2 & nu & Hin & _ & _ & Hnu & ->).
    cbn [c3_nu].
    destruct par_init as [given |].
    { rewrite init_values_given in Hin. inversion Hin; subst.
      unfold nu_prior_cov3par in Hnu. simpl in Hnu.
      destruct (nu_limits_of covfunc) as [[lo hi] |]; discriminate. }
    destruct (nu_init_of covfunc) as [v |] eqn:Ei.
    2:{ rewrite (init_values_unknown _ _ _ _ w Ei) in Hin. discriminate. }
    rewrite (init_values_known _ _ _ _ v w Ei) in Hin. inversion Hin; subst. clear Hin.
    cbn [fst snd] in Hnu.
    unfold nu_init_of in Ei. unfold nu_limits_of in Hnu.
    destruct (py_is covfunc "pow_exp") eqn:E1;
      [| destruct (py_is covfunc "matern") eqn:E2;
         [| destruct (py_is covfunc "pareto_exp") eqn:E3;
            [| destruct (py_is covfunc "kepler_exp") eqn:E4; [| discriminate]]]];
      inversion Ei; subst; rewrite nu_prior_cov3par_Uniform in Hnu;
      inversion Hnu; subst;
      match goal with
      | E : py_is covfunc _ = true |- _ => rewrite (py_is_chars _ _ E)
      end;
      do 3 eexists; (split; [reflexivity |]); (split; [lra |]);
      unfold covfunc_table; simpl; tauto.
Qed.

Lemma is_range_nonneg (ry : R) (a : list R) : is_range ry a -> 0 <= ry.
Proof.
  intros (ymax & ymin & [Hin _] & [_ Hlb] & ->). specialize (Hlb ymax Hin). lra.
Qed.

Lemma is_range_zero_iff (ry : R) (a : list R) :
  is_range ry a -> (ry = 0 <-> constant_array a).
Proof.
  intros (ymax & ymin & [Hmax Hub] & [Hmin Hlb] & ->). split.
  - intros E x y Hx Hy.
    pose proof (Hub x Hx). pose proof (Hlb x Hx).
    pose proof (Hub y Hy). pose proof (Hlb y Hy). lra.
  - intro Hc. rewrite (Hc ymax ymin Hmax Hmin). lra.
Qed.

(** X11. Under [use_sigprior == "CSK"] the initial value of sigma is never
    negative, and it is 0, the one point where the log-density of sigma
    returns [None], exactly when all the magnitudes of the dataset are
    equal; on any other dataset the log-density at the initial value is the
    finite number [-log(ry/4)]. *)
Theorem csk_sigma_initial_value :
  (forall tp np verbose w m w',
      make_model_powexp float_of_str fmt_3f fmt_s loglike_prh
        (PyStr "CSK") tp np verbose w = (Ok m, w') ->
      exists logp,
        pe_sigma m = Stochastic "sigma" logp (value_of (pe_sigma m))
        /\ 0 <= value_of (pe_sigma m)
        /\ (logp (value_of (pe_sigma m)) = None
            <-> constant_array (marr (zydata_obj w)))
        /\ (~ constant_array (marr (zydata_obj w)) ->
            logp (value_of (pe_sigma m)) = Some (Finite (- ln (pe_ry m / 4)))))
  /\ (forall covfunc tp np par_init verbose w m w',
         make_model_cov3par float_of_str fmt_3f fmt_s loglike_prh
           covfunc (PyStr "CSK") tp np par_init verbose w = (Ok m, w') ->
         exists logp,
           c3_sigma m = Stochastic "sigma" logp (value_of (c3_sigma m))
           /\ 0 <= value_of (c3_sigma m)
           /\ (logp (value_of (c3_sigma m)) = None
               <-> constant_array (marr (zydata_obj w)))
           /\ (~ constant_array (marr (zydata_obj w)) ->
               logp (value_of (c3_sigma m)) = Some (Finite (- ln (c3_ry m / 4))))).
Proof.
  assert (Hkey : forall ry a,
             is_range ry a ->
             0 <= ry / 4
             /\ (sigma_logp (ry / 4) = None <-> constant_array a)
             /\ (~ constant_array a ->
                 sigma_logp (ry / 4) = Some (Finite (- ln (ry / 4))))).
  { intros ry a Hr. pose proof (is_range_nonneg ry a Hr) as Hn.
    pose proof (is_range_zero_iff ry a Hr) as Hz.
    split; [lra |]. split.
    - rewrite sigma_logp_None. rewrite <- Hz. split; lra.
    - intro Hc. apply sigma_logp_pos.
      assert (ry <> 0) by (intro E; apply Hc; now apply Hz). lra. }
  split.
  - intros tp np verbose w m w' H.
    pose proof (powexp_ry _ _ _ _ _ _ _ _ _ _ _ H) as Hr.
    apply powexp_stages in H. destruct H as (_ & _ & w1 & w2 & Hsig & _).
    rewrite sigma_prior_CSK in Hsig.
    assert (Hs : pe_sigma m = Stochastic "sigma" sigma_logp (pe_ry m / 4))
      by congruence.
    rewrite Hs. exists sigma_logp. simpl. split; [reflexivity |].
    exact (Hkey _ _ Hr).
  - intros covfunc tp np par_init verbose w m w' H.
    pose proof (cov3par_ry _ _ _ _ _ _ _ _ _ _ _ _ _ H) as Hr.
    apply cov3par_stages in H. destruct H as (_ & _ & w1 & w2 & Hsig & _).
    rewrite sigma_prior_CSK in Hsig.
    assert (Hs : c3_sigma m = Stochastic "sigma" sigma_logp (c3_ry m / 4))
      by congruence.
    rewrite Hs. exists sigma_logp. simpl. split; [reflexivity |].
    exact (Hkey _ _ Hr).
Qed.

Lemma invsigsq_init_pos (ry : R) :
  0 < ry -> invsigsq_init ry = / (ry / 4) * / (ry / 4) /\ 0 < / (ry / 4).
Proof.
  intro H. rewrite invsigsq_init_eq. split.
  - field. lra.
  - apply Rinv_0_lt_compat. lra.
Qed.

Lemma sigma_of_invsigsq_init (ry : R) :
  0 < ry -> sigma_of_invsigsq (invsigsq_init ry) = ry / 4.
Proof.
  intro H. destruct (invsigsq_init_pos ry H) as [-> Hp].
  unfold sigma_of_invsigsq, np_sqrt. rewrite sqrt_square by lra.
  rewrite lit_1. field. lra.
Qed.

Lemma sigma_of_invsigsq_guarded_init (ry : R) :
  0 < ry ->
  (ry <= 4000 -> sigma_of_invsigsq_guarded (invsigsq_init ry) = ry / 4)
  /\ (4000 < ry -> sigma_of_invsigsq_guarded (invsigsq_init ry) = 1e6).
Proof.
  intro H. destruct (invsigsq_init_pos ry H) as [E Hp].
  assert (Hq : 0 < ry / 4) by lra.
  assert (Hi : / (ry / 4) * (ry / 4) = 1) by (apply Rinv_l; lra).
  split; intro Hc.
  - assert (Hl : ~ Rabs (invsigsq_init ry) < 1e-6).
    { rewrite E, Rabs_pos_eq by nra.
      assert (1e-3 <= / (ry / 4)) by nra. nra. }
    destruct (sigma_of_invsigsq_guarded_large _ Hl) as (_ & _ & ->).
    rewrite E, Rabs_pos_eq by nra. rewrite sqrt_square by lra. field. lra.
  - apply sigma_of_invsigsq_guarded_small.
    rewrite E, Rabs_pos_eq by nra.
    assert (/ (ry / 4) < 1e-3) by nra. nra.
Qed.

Lemma sigma_prior_value (ry : R) (s : string) (verbose : bool) (w w1 : world)
  (sig : option node * node) :
  sigma_prior float_of_str fmt_3f fmt_s ry (PyStr s) verbose w = (Ok sig, w1) ->
  0 < ry ->
  (In s ["CSK"; "Vague"; "Gamma"] -> value_of (snd sig) = ry / 4)
  /\ (s = "None" ->
      (ry <= 4000 -> value_of (snd sig) = ry / 4)
      /\ (4000 < ry -> value_of (snd sig) = 1e6)).
Proof.
  intros H Hry. split.
  - intros [<- | [<- | [<- | []]]].
    + rewrite sigma_prior_CSK in H. inversion H. reflexivity.
    + rewrite sigma_prior_Vague in H. inversion H. simpl.
      now apply sigma_of_invsigsq_init.
    + rewrite sigma_prior_Gamma in H. inversion H. simpl.
      now apply sigma_of_invsigsq_init.
  - intros ->. rewrite sigma_prior_None in H. inversion H. simpl.
    now apply sigma_of_invsigsq_guarded_init.
Qed.

Lemma is_range_pos (ry : R) (a : list R) :
  is_range ry a -> ~ constant_array a -> 0 < ry.
Proof.
  intros Hr Hc. pose proof (is_range_nonneg ry a Hr).
  assert (ry <> 0) by (intro E; apply Hc; now apply (is_range_zero_iff ry a Hr)).
  lra.
Qed.

(** X12. On a dataset whose magnitudes are not all equal, sigma starts at
    [ry/4] under each of the priors "CSK", "Vague" and "Gamma": the
    deterministic [1/sqrt(invsigsq)] at the initial value [1/(ry/4)^2] of
    its parent gives [ry/4] back.  Under "None" it starts at [ry/4] as long
    as [ry <= 4000]; beyond, the initial [invsigsq] falls below the guard
    [1e-6] and sigma starts at [1e6]. *)
Theorem named_sigma_priors_start_at_quarter_range :
  (forall s tp np verbose w m w',
      make_model_powexp float_of_str fmt_3f fmt_s loglike_prh
        (PyStr s) tp np verbose w = (Ok m, w') ->
      ~ constant_array (marr (zydata_obj w)) ->
      (In s ["CSK"; "Vague"; "Gamma"] -> value_of (pe_sigma m) = pe_ry m / 4)
      /\ (s = "None" ->
          (pe_ry m <= 4000 -> value_of (pe_sigma m) = pe_ry m / 4)
          /\ (4000 < pe_ry m -> value_of (pe_sigma m) = 1e6)))
  /\ (forall covfunc s tp np par_init verbose w m w',
         make_model_cov3par float_of_str fmt_3f fmt_s loglike_prh
           covfunc (PyStr s) tp np par_init verbose w = (Ok m, w') ->
         ~ constant_array (marr (zydata_obj w)) ->
         (In s ["CSK"; "Vague"; "Gamma"] -> value_of (c3_sigma m) = c3_ry m / 4)
         /\ (s = "None" ->
             (c3_ry m <= 4000 -> value_of (c3_sigma m) = c3_ry m / 4)
             /\ (4000 < c3_ry m -> value_of (c3_sigma m) = 1e6))).
Proof.
  split.
  - intros s tp np verbose w m w' H Hc.
    pose proof (is_range_pos _ _ (powexp_ry _ _ _ _ _ _ _ _ _ _ _ H) Hc) as Hry.
    apply powexp_stages in H. destruct H as (_ & _ & w1 & w2 & Hsig & _).
    exact (sigma_prior_value _ _ _ _ _ _ Hsig Hry).
  - intros covfunc s tp np par_init verbose w m w' H Hc.
    pose proof (is_range_pos _ _ (cov3par_ry _ _ _ _ _ _ _ _ _ _ _ _ _ H) Hc) as Hry.
    apply cov3par_stages in H. destruct H as (_ & _ & w1 & w2 & Hsig & _).
    exact (sigma_prior_value _ _ _ _ _ _ Hsig Hry).
Qed.

Lemma ln_div (x y : R) : 0 < x -> 0 < y -> ln (x / y) = ln x - ln y.
Proof.
  intros Hx Hy. unfold Rdiv. rewrite ln_mult, ln_Rinv; try lra.
  now apply Rinv_0_lt_compat.
Qed.

Lemma ln_gt_1 (x : R) : 1 < x -> 0 < ln x.
Proof. intro H. rewrite <- ln_1. apply ln_increasing; lra. Qed.

(** X13. For a positive cadence the log-density of tau under "CSK" always
    returns, is never positive, and reaches 0 at [value = cadence] only; its
    two lobes mirror each other: a value [k] times the cadence (below the
    cut-off at 10000) and a value [k] times smaller have the same
    log-density [-log k]. *)
Theorem tau_logp_is_double_lobed :
  forall cadence,
    0 < cadence ->
    (forall value, tau_logp cadence value <> None)
    /\ (forall value x,
           tau_logp cadence value = Some (Finite x) ->
           x <= 0 /\ (x = 0 <-> value = cadence))
    /\ (forall k,
           1 < k -> cadence * k < 10000 ->
           tau_logp cadence (cadence * k) = Some (Finite (- ln k))
           /\ tau_logp cadence (cadence / k) = Some (Finite (- ln k))).
Proof.
  intros cadence Hc. split; [| split].
  - intros value. unfold tau_logp.
    destruct ((10000 >? value) && (value >? 1.0 * cadence)); [discriminate |].
    destruct ((0.0 <? value) && (value <=? 1.0 * cadence)); discriminate.
  - intros value x H.
    destruct (Rlt_dec cadence value) as [Hlt | Hge].
    + destruct (Rlt_dec value 10000) as [Hv | Hv].
      * rewrite tau_logp_above in H by lra. inversion H; subst.
        assert (1 < value / cadence).
        { apply Rmult_lt_reg_r with cadence; [exact Hc |].
          unfold Rdiv. rewrite Rmult_assoc, Rinv_l by lra. lra. }
        pose proof (ln_gt_1 _ H0). split; [lra |]. split; intro; lra.
      * rewrite tau_logp_otherwise in H by lra. discriminate.
    + destruct (Rlt_dec 0 value) as [Hp | Hp].
      * rewrite tau_logp_below in H by lra. inversion H; subst.
        destruct (Req_dec value cadence) as [E | N].
        -- subst value. unfold Rdiv. rewrite Rinv_r, ln_1 by lra.
           split; [lra |]. split; intro; lra.
        -- assert (1 < cadence / value).
           { apply Rmult_lt_reg_r with value; [exact Hp |].
             unfold Rdiv. rewrite Rmult_assoc, Rinv_l by lra. lra. }
           pose proof (ln_gt_1 _ H0). split; [lra |]. split; intro; lra.
      * rewrite tau_logp_otherwise in H by lra. discriminate.
  - intros k Hk Hlim.
    assert (Hik : 0 < / k) by (apply Rinv_0_lt_compat; lra).
    assert (Hik1 : / k < 1).
    { rewrite <- Rinv_1. apply Rinv_lt_contravar; lra. }
    split.
    + rewrite tau_logp_above by nra.
      replace (cadence * k / cadence) with k by (field; lra). reflexivity.
    + rewrite tau_logp_below by (unfold Rdiv; nra).
      replace (cadence / (cadence / k)) with k by (field; lra). reflexivity.
Qed.

(** X14. The cut-off of the tau prior at 10000 applies only above the
    cadence: with a cadence below 10000 every value from 10000 on has
    log-density [-inf]; with a cadence of 10000 or more the values from
    10000 up to the cadence keep the finite log-density
    [-log(cadence/value)].  With a cadence that is not negative, values
    that are not positive have log-density [-inf]. *)
Theorem tau_logp_cut_off :
  forall cadence value,
    (cadence < 10000 -> 10000 <= value -> tau_logp cadence value = Some NegInf)
    /\ (10000 <= value <= cadence ->
        tau_logp cadence value = Some (Finite (- ln (cadence / value))))
    /\ (0 <= cadence -> value <= 0 -> tau_logp cadence value = Some NegInf).
Proof.
  intros cadence value. split; [| split].
  - intros Hc Hv. apply tau_logp_otherwise; lra.
  - intro H. apply tau_logp_below. lra.
  - intros Hc H. apply tau_logp_otherwise; lra.
Qed.

Lemma tau_logp_at_geometric_mean (rx cadence : R) :
  0 < cadence <= rx -> rx * cadence < 10000 * 10000 ->
  tau_logp cadence (sqrt (rx * cadence))
  = Some (Finite (- ((ln rx - ln cadence) / 2))).
Proof.
  intros Hc Hlim. set (s := sqrt (rx * cadence)).
  assert (Hprod : 0 < rx * cadence) by nra.
  assert (Hs : 0 < s) by (now apply sqrt_lt_R0).
  assert (Hss : s * s = rx * cadence) by (apply sqrt_sqrt; lra).
  assert (Hlo : cadence <= s) by nra.
  assert (Hhi : s < 10000) by nra.
  assert (Hln : ln s + ln s = ln rx + ln cadence).
  { rewrite <- !ln_mult by lra. now rewrite Hss. }
  destruct (Rlt_dec cadence s) as [Hlt | Hge].
  - rewrite tau_logp_above by lra. rewrite ln_div by lra.
    do 2 f_equal. lra.
  - assert (E : s = cadence) by lra.
    rewrite tau_logp_below by lra. rewrite ln_div by lra.
    rewrite E in Hln |- *. do 2 f_equal. lra.
Qed.

(** X15. Under [use_tauprior == "CSK"], on a dataset whose cadence is
    positive and at most its time span [rj], with [rj * cadence] below
    10000^2, the initial value of tau, the geometric mean of span and
    cadence, has the finite log-density [-(log rj - log cadence)/2]. *)
Theorem csk_tau_initial_log_density :
  forall w,
    0 < cont_cad (zydata_obj w) <= rj (zydata_obj w) ->
    rj (zydata_obj w) * cont_cad (zydata_obj w) < 10000 * 10000 ->
    (forall sp np verbose m w',
        make_model_powexp float_of_str fmt_3f fmt_s loglike_prh
          sp (PyStr "CSK") np verbose w = (Ok m, w') ->
        exists logp,
          pe_tau m = Stochastic "tau" logp (value_of (pe_tau m))
          /\ logp (value_of (pe_tau m))
             = Some (Finite (- ((ln (rj (zydata_obj w))
                                 - ln (cont_cad (zydata_obj w))) / 2))))
    /\ (forall covfunc sp np par_init verbose m w',
           make_model_cov3par float_of_str fmt_3f fmt_s loglike_prh
             covfunc sp (PyStr "CSK") np par_init verbose w = (Ok m, w') ->
           exists logp,
             c3_tau m = Stochastic "tau" logp (value_of (c3_tau m))
             /\ logp (value_of (c3_tau m))
                = Some (Finite (- ((ln (rj (zydata_obj w))
                                    - ln (cont_cad (zydata_obj w))) / 2)))).
Proof.
  intros w Hc Hlim. split.
  - intros sp np verbose m w' H. apply powexp_stages in H.
    destruct H as (_ & _ & w1 & w2 & _ & Htau). rewrite tau_prior_CSK in Htau.
    assert (Ht : pe_tau m = Stochastic "tau" (tau_logp (cont_cad (zydata_obj w)))
                   (sqrt (rj (zydata_obj w) * cont_cad (zydata_obj w))))
      by congruence.
    rewrite Ht. eexists. simpl. split; [reflexivity |].
    now apply tau_logp_at_geometric_mean.
  - intros covfunc sp np par_init verbose m w' H. apply cov3par_stages in H.
    destruct H as (_ & _ & w1 & w2 & _ & Htau). rewrite tau_prior_CSK in Htau.
    assert (Ht : c3_tau m = Stochastic "tau" (tau_logp (cont_cad (zydata_obj w)))
                   (sqrt (rj (zydata_obj w) * cont_cad (zydata_obj w))))
      by congruence.
    rewrite Ht. eexists. simpl. split; [reflexivity |].
    now apply tau_logp_at_geometric_mean.
Qed.

Lemma sigma_of_invsigsq_guarded_outside (invsigsq : R) :
  1e-6 <= Rabs invsigsq -> sigma_of_invsigsq_guarded invsigsq <= 1000.
Proof.
  intro H.
  destruct (sigma_of_invsigsq_guarded_large invsigsq) as (Hp & _ & ->); [lra |].
  assert (Hr : 1e-3 <= sqrt (Rabs invsigsq)).
  { replace 1e-3 with (sqrt (1e-3 * 1e-3)) by (apply sqrt_square; lra).
    apply sqrt_le_1_alt. lra. }
  assert (Hi : / sqrt (Rabs invsigsq) <= / 1e-3).
  { apply Rinv_le_contravar; lra. }
  replace (/ 1e-3) with 1000 in Hi by lra.
  unfold Rdiv. rewrite Rmult_1_l. exact Hi.
Qed.

(** X16. The deterministic sigma under "None" depends on [invsigsq] through
    its absolute value only, and from the guard on ([invsigsq >= 1e-6]) it
    is the unguarded [1/sqrt(invsigsq)] of the "Vague" and "Gamma" priors.
    It has a jump at the guard: outside the guard it is at most 1000, inside
    it is 1e6, so every [invsigsq] inside the guard gives a larger sigma
    than every one outside. *)
Theorem guarded_sigma_shape :
  (forall invsigsq,
      sigma_of_invsigsq_guarded (- invsigsq) = sigma_of_invsigsq_guarded invsigsq)
  /\ (forall invsigsq,
         1e-6 <= invsigsq ->
         sigma_of_invsigsq_guarded invsigsq = sigma_of_invsigsq invsigsq)
  /\ (forall inside outside,
         Rabs inside < 1e-6 -> 1e-6 <= Rabs outside ->
         sigma_of_invsigsq_guarded outside <= 1000
         /\ 1000 < sigma_of_invsigsq_guarded inside).
Proof.
  split; [| split].
  - intro x. unfold sigma_of_invsigsq_guarded, np_abs. now rewrite Rabs_Ropp.
  - intros x Hx.
    destruct (sigma_of_invsigsq_guarded_large x) as (_ & _ & ->).
    + rewrite Rabs_pos_eq; lra.
    + rewrite Rabs_pos_eq by lra. unfold sigma_of_invsigsq, np_sqrt.
      rewrite lit_1. reflexivity.
  - intros x y Hx Hy. split.
    + now apply sigma_of_invsigsq_guarded_outside.
    + rewrite sigma_of_invsigsq_guarded_small by exact Hx. lra.
Qed.

Lemma sigma_prior_invsigsq (ry : R) (v : pyval) (verbose : bool) (w w1 : world)
  (sig : option node * node) :
  sigma_prior float_of_str fmt_3f fmt_s ry v verbose w = (Ok sig, w1) ->
  (fst sig <> None <-> named ["Vague"; "Gamma"; "None"] v = true)
  /\ (forall parent, fst sig = Some parent ->
        value_of parent = invsigsq_init ry
        /\ exists eval, snd sig = Deterministic "sigma" eval parent)
  /\ (fst sig = None ->
        (v ==s "CSK") = true /\ snd sig = Stochastic "sigma" sigma_logp (ry / 4)
        \/ exists x, py_float float_of_str v = Some x /\ snd sig = Fixed x).
Proof.
  intro H. unfold sigma_prior in H. unfold named. cbn [existsb].
  destruct (v ==s "CSK") eqn:E1.
  { destruct v as [s | |]; try discriminate. simpl in E1.
    apply String.eqb_eq in E1. subst s. cbn in H |- *.
    unfold ret in H. inversion H; subst. cbn.
    split; [split; [congruence | discriminate] |].
    split; [discriminate |]. intros _. left. rewrite <- lit_4. auto. }
  destruct (v ==s "Vague") eqn:E2.
  { unfold ret in H. inversion H; subst. cbn.
    split; [split; [reflexivity | discriminate] |]. split; [| discriminate].
    intros p Hp. inversion Hp; subst. cbn. split; [reflexivity | eauto]. }
  destruct (v ==s "Gamma") eqn:E3.
  { unfold ret in H. inversion H; subst. cbn.
    split; [split; [reflexivity | discriminate] |]. split; [| discriminate].
    intros p Hp. inversion Hp; subst. cbn. split; [reflexivity | eauto]. }
  destruct (v ==s "None") eqn:E4.
  { unfold ret in H. inversion H; subst. cbn.
    split; [split; [reflexivity | discriminate] |]. split; [| discriminate].
    intros p Hp. inversion Hp; subst. cbn. split; [reflexivity | eauto]. }
  apply bind_Ok_inv in H. destruct H as (sigma & w2 & Hf & Hr).
  unfold ret in Hr. inversion Hr; subst. cbn.
  split; [split; [congruence | discriminate] |]. split; [discriminate |].
  intros _. right. unfold fixed_prior in Hf.
  destruct (py_float float_of_str v) as [x |]; [| discriminate].
  exists x. split; [reflexivity |].
  apply bind_Ok_inv in Hf. destruct Hf as (u & w3 & _ & Hret).
  unfold ret in Hret. now inversion Hret.
Qed.

(** X17. What either builder returns holds the local [invsigsq] exactly
    when [use_sigprior] is "Vague", "Gamma" or "None"; sigma is then the
    deterministic variable whose parent is that very [invsigsq], which
    starts at [1/(ry/4)^2].  Without [invsigsq], sigma is the stochastic
    variable of "CSK" or the plain number given as [use_sigprior]. *)
Theorem invsigsq_is_declared_with_deterministic_sigma :
  (forall sp tp np verbose w m w',
      make_model_powexp float_of_str fmt_3f fmt_s loglike_prh sp tp np verbose w
      = (Ok m, w') ->
      (pe_invsigsq m <> None <-> named ["Vague"; "Gamma"; "None"] sp = true)
      /\ (forall parent, pe_invsigsq m = Some parent ->
            value_of parent = 1 / (pe_ry m / 4) ^ 2
            /\ exists eval, pe_sigma m = Deterministic "sigma" eval parent)
      /\ (pe_invsigsq m = None ->
            (sp ==s "CSK") = true
            /\ pe_sigma m = Stochastic "sigma" sigma_logp (pe_ry m / 4)
            \/ exists x, py_float float_of_str sp = Some x /\ pe_sigma m = Fixed x))
  /\ (forall covfunc sp tp np par_init verbose w m w',
         make_model_cov3par float_of_str fmt_3f fmt_s loglike_prh
           covfunc sp tp np par_init verbose w = (Ok m, w') ->
         (c3_invsigsq m <> None <-> named ["Vague"; "Gamma"; "None"] sp = true)
         /\ (forall parent, c3_invsigsq m = Some parent ->
               value_of parent = 1 / (c3_ry m / 4) ^ 2
               /\ exists eval, c3_sigma m = Deterministic "sigma" eval parent)
         /\ (c3_invsigsq m = None ->
               (sp ==s "CSK") = true
               /\ c3_sigma m = Stochastic "sigma" sigma_logp (c3_ry m / 4)
               \/ exists x, py_float float_of_str sp = Some x /\ c3_sigma m = Fixed x)).
Proof.
  split.
  - intros sp tp np verbose w m w' H. apply powexp_stages in H.
    destruct H as (_ & _ & w1 & w2 & Hsig & _).
    pose proof (sigma_prior_invsigsq _ _ _ _ _ _ Hsig) as Hk.
    cbn [fst snd] in Hk. rewrite <- invsigsq_init_eq. exact Hk.
  - intros covfunc sp tp np par_init verbose w m w' H. apply cov3par_stages in H.
    destruct H as (_ & _ & w1 & w2 & Hsig & _).
    pose proof (sigma_prior_invsigsq _ _ _ _ _ _ Hsig) as Hk.
    cbn [fst snd] in Hk. rewrite <- invsigsq_init_eq. exact Hk.
Qed.

End Outcomes.

(* ------------------------------------------------------------------ *)
(** ** The further properties at work on the sample dataset *)

Lemma sample_not_constant : ~ constant_array (marr (zydata_obj Sample.world0)).
Proof.
  intro H. assert (E : 1 = 3) by (apply H; simpl; auto). lra.
Defined.

Lemma sample_usable :
  usable Sample.float_of_str sigma_names (PyStr "CSK")
  /\ usable Sample.float_of_str tau_names (PyStr "IG")
  /\ usable Sample.float_of_str nu_names (PyStr "2.5").
Proof. split; [left | split; [left | right]]; try reflexivity. discriminate. Defined.

Lemma powexp_returns_only_if_witness :
  exists m w',
    Sample.powexp (PyStr "CSK") (PyStr "IG") (PyStr "2.5") false Sample.world0
    = (Ok m, w')
    /\ usable Sample.float_of_str sigma_names (PyStr "CSK")
    /\ usable Sample.float_of_str tau_names (PyStr "IG")
    /\ usable Sample.float_of_str nu_names (PyStr "2.5").
Proof.
  eexists. eexists. split; [reflexivity |].
  exact (proj2 (powexp_returns_only_if Sample.float_of_str Sample.fmt Sample.fmt
                  Sample.loglike_prh (PyStr "CSK") (PyStr "IG") (PyStr "2.5")
                  false Sample.world0 _ _ eq_refl)).
Defined.

Lemma cov3par_returns_only_if_witness :
  exists m w',
    Sample.cov3par (lit "matern") (PyStr "CSK") (PyStr "IG") (PyStr "Uniform")
      None false Sample.world0 = (Ok m, w')
    /\ nu_accepted Sample.float_of_str (lit "matern") None (PyStr "Uniform").
Proof.
  eexists. eexists. split; [reflexivity |].
  exact (proj2 (proj2 (proj2 (proj2
           (cov3par_returns_only_if Sample.float_of_str Sample.fmt Sample.fmt
              Sample.loglike_prh (lit "matern") (PyStr "CSK") (PyStr "IG")
              (PyStr "Uniform") None false Sample.world0 _ _ eq_refl))))).
Defined.

Lemma empty_dataset_is_refused_witness :
  marr (zydata_obj Sample.empty_world) = []
  /\ exists msg,
      raises_in (Sample.powexp (PyStr "CSK") (PyStr "CSK") (PyStr "Uniform") false
                   Sample.empty_world) (ValueError msg) Sample.empty_world
      /\ raises_in (Sample.cov3par (lit "matern") (PyStr "CSK") (PyStr "CSK")
                      (PyStr "Uniform") None false Sample.empty_world)
           (ValueError msg) Sample.empty_world.
Proof.
  split; [reflexivity |].
  destruct (empty_dataset_is_refused Sample.float_of_str Sample.fmt Sample.fmt
              Sample.loglike_prh (PyStr "CSK") (PyStr "CSK") (PyStr "Uniform") false
              Sample.empty_world eq_refl) as (msg & Hp & Hc).
  exists msg. split; [exact Hp | exact (Hc (lit "matern") None)].
Defined.

Lemma powexp_reports_first_unusable_prior_witness :
  unusable Sample.float_of_str sigma_names (PyStr "IG")
  /\ unusable Sample.float_of_str tau_names (PyStr "Gamma")
  /\ raises_in (Sample.powexp (PyStr "IG") (PyStr "Gamma") (PyStr "Uniform") true
                  Sample.world0)
       (RuntimeError "no such prior for sigma IG") Sample.world0
  /\ exists w1,
      raises_in (Sample.powexp (PyStr "2.5") (PyStr "Gamma") (PyStr "Uniform") true
                   Sample.world0)
        (RuntimeError "no such prior for tau Gamma") w1.
Proof.
  assert (Hne : marr (zydata_obj Sample.world0) <> []) by discriminate.
  assert (Hs : unusable Sample.float_of_str sigma_names (PyStr "IG"))
    by (split; reflexivity).
  assert (Ht : unusable Sample.float_of_str tau_names (PyStr "Gamma"))
    by (split; reflexivity).
  assert (Us : usable Sample.float_of_str sigma_names (PyStr "2.5"))
    by (right; discriminate).
  split; [exact Hs |]. split; [exact Ht |]. split.
  - exact (proj1 (powexp_reports_first_unusable_prior Sample.float_of_str Sample.fmt
                    Sample.fmt Sample.loglike_prh (PyStr "IG") (PyStr "Gamma")
                    (PyStr "Uniform") true Sample.world0 Hne) Hs).
  - exact (proj1 (proj2 (powexp_reports_first_unusable_prior Sample.float_of_str
                           Sample.fmt Sample.fmt Sample.loglike_prh (PyStr "2.5")
                           (PyStr "Gamma") (PyStr "Uniform") true Sample.world0 Hne))
             Us Ht).
Defined.

Lemma cov3par_given_par_init_excludes_uniform_nu_witness :
  (exists w1,
      raises_in (Sample.cov3par (lit "matern") (PyStr "CSK") (PyStr "IG")
                   (PyStr "Uniform") (Some [1; 2; 3]) false Sample.world0)
        (UnboundLocalError "nu_init") w1)
  /\ (exists w1,
         raises_in (Sample.cov3par (lit "gaussian") (PyStr "CSK") (PyStr "IG")
                      (PyStr "Uniform") (Some [1; 2; 3]) false Sample.world0)
           (UnboundLocalError "nu_min") w1).
Proof.
  assert (Hne : marr (zydata_obj Sample.world0) <> []) by discriminate.
  split.
  - exact (cov3par_given_par_init_excludes_uniform_nu Sample.float_of_str Sample.fmt
             Sample.fmt Sample.loglike_prh (lit "matern") (PyStr "CSK") (PyStr "IG")
             [1; 2; 3] false Sample.world0 Hne (proj1 sample_usable)
             (proj1 (proj2 sample_usable))).
  - exact (cov3par_given_par_init_excludes_uniform_nu Sample.float_of_str Sample.fmt
             Sample.fmt Sample.loglike_prh (lit "gaussian") (PyStr "CSK") (PyStr "IG")
             [1; 2; 3] false Sample.world0 Hne (proj1 sample_usable)
             (proj1 (proj2 sample_usable))).
Defined.

Lemma cov3par_returned_with_unrecognised_covfunc_witness :
  known_covfunc Sample.matern_copy = false
  /\ exists m w',
      Sample.cov3par Sample.matern_copy (PyStr "CSK") (PyStr "IG") (PyStr "2.5")
        (Some [1; 2; 3]) false Sample.world0 = (Ok m, w')
      /\ c3_guess m = [1; 2; 3]
      /\ c3_nu_limits m = None.
Proof.
  split; [reflexivity |].
  eexists. eexists. split; [reflexivity |].
  destruct (cov3par_returned_with_unrecognised_covfunc Sample.float_of_str Sample.fmt
              Sample.fmt Sample.loglike_prh Sample.matern_copy (PyStr "CSK")
              (PyStr "IG") (PyStr "2.5") (Some [1; 2; 3]) false Sample.world0 _ _
              eq_refl eq_refl) as (Hg & _ & _ & _ & Hl & _).
  split; [| exact Hl]. congruence.
Defined.

Lemma builders_print_only_for_fixed_values_under_set_verbose_witness :
  named sigma_names (PyStr "Vague") = true
  /\ named tau_names (PyStr "IG") = true
  /\ named nu_names (PyStr "Uniform") = true
  /\ stdout (snd (Sample.powexp (PyStr "Vague") (PyStr "IG") (PyStr "Uniform") true
                    Sample.world0)) = []
  /\ stdout (snd (Sample.cov3par (lit "matern") (PyStr "Vague") (PyStr "IG")
                    (PyStr "Uniform") None true Sample.world0)) = [].
Proof.
  destruct (proj2 (builders_print_only_for_fixed_values_under_set_verbose
                     Sample.float_of_str Sample.fmt Sample.fmt Sample.loglike_prh
                     (PyStr "Vague") (PyStr "IG") (PyStr "Uniform") Sample.world0)
              eq_refl eq_refl eq_refl true) as [Hp Hc].
  do 3 (split; [reflexivity |]). split; [exact Hp |].
  exact (Hc (lit "matern") None).
Defined.

Lemma powexp_verbose_prints_three_lines_witness :
  exists m,
    Sample.powexp (PyStr "2.5") (PyFloat 3) (PyStr "2.5") true Sample.world0
    = (Ok m, {| zydata_obj := Sample.zydata;
                stdout := ["sigma is fixed to be <float>"; "tau is fixed to be <float>";
                           "nu is fixed to be <float>"];
                prh_calls := [] |})
    /\ (pe_sigma m, pe_tau m, pe_nu m) = (Fixed 2.5, Fixed 3, Fixed 2.5).
Proof.
  destruct (powexp_verbose_prints_three_lines Sample.float_of_str Sample.fmt Sample.fmt
              Sample.loglike_prh (PyStr "2.5") (PyFloat 3) (PyStr "2.5") Sample.world0
              2.5 3 2.5) as (m & H & Hv & _); try reflexivity.
  - discriminate.
  - exact sample_rejects_names.
  - exists m. split; [exact H | exact Hv].
Defined.

Lemma sample_range : range_of (marr (zydata_obj Sample.world0)) = 2.
Proof.
  simpl. rewrite (Rmax_right 1 3), (Rmax_left 3 2) by lra.
  rewrite (Rmin_left 1 3), (Rmin_left 1 2) by lra. lra.
Defined.

Lemma cov3par_at_pow_exp_agrees_with_powexp_witness :
  exists m m3 w',
    Sample.powexp (PyStr "Vague") (PyStr "IG") (PyStr "Uniform") false Sample.world0
    = (Ok m, w')
    /\ Sample.cov3par (lit "pow_exp") (PyStr "Vague") (PyStr "IG") (PyStr "Uniform")
         None false Sample.world0 = (Ok m3, w')
    /\ (c3_sigma m3, c3_tau m3, c3_invsigsq m3) = (pe_sigma m, pe_tau m, pe_invsigsq m)
    /\ pe_nu m = Uniform "nu" 0 2 1
    /\ c3_nu m3 = Uniform "nu" 0 1.999 1.
Proof.
  destruct (cov3par_at_pow_exp_agrees_with_powexp Sample.float_of_str Sample.fmt
              Sample.fmt Sample.loglike_prh (PyStr "Vague") (PyStr "IG")
              (PyStr "Uniform") false Sample.world0 _ _ eq_refl)
    as (m3 & H3 & Hs & Hnu & _).
  eexists. exists m3. eexists. split; [reflexivity |].
  split; [exact H3 |]. split; [exact Hs |]. exact Hnu.
Defined.

Lemma uniform_nu_starts_inside_its_limits_witness :
  exists m w',
    Sample.cov3par (lit "kepler_exp") (PyStr "CSK") (PyStr "CSK") (PyStr "Uniform")
      None false Sample.world0 = (Ok m, w')
    /\ exists lo hi v,
        c3_nu m = Uniform "nu" lo hi v /\ lo < v < hi
        /\ In ("kepler_exp", (v, (lo, hi))) covfunc_table.
Proof.
  eexists. eexists. split; [reflexivity |].
  exact (proj2 (uniform_nu_starts_inside_its_limits Sample.float_of_str Sample.fmt
                  Sample.fmt Sample.loglike_prh)
           (lit "kepler_exp") (PyStr "CSK") (PyStr "CSK") None false Sample.world0
           _ _ eq_refl).
Defined.

Lemma csk_sigma_initial_value_witness :
  ~ constant_array (marr (zydata_obj Sample.world0))
  /\ exists m w',
      Sample.powexp (PyStr "CSK") (PyStr "CSK") (PyStr "Uniform") false Sample.world0
      = (Ok m, w')
      /\ exists logp,
          pe_sigma m = Stochastic "sigma" logp (value_of (pe_sigma m))
          /\ logp (value_of (pe_sigma m)) = Some (Finite (- ln (pe_ry m / 4))).
Proof.
  split; [exact sample_not_constant |].
  destruct (proj1 (csk_sigma_initial_value Sample.float_of_str Sample.fmt Sample.fmt
                     Sample.loglike_prh)
              (PyStr "CSK") (PyStr "Uniform") false Sample.world0 _ _ eq_refl)
    as (logp & Hs & _ & _ & Hl).
  eexists. eexists. split; [reflexivity |].
  exists logp. split; [exact Hs | exact (Hl sample_not_constant)].
Defined.

Lemma named_sigma_priors_start_at_quarter_range_witness :
  (exists m w',
      Sample.powexp (PyStr "Gamma") (PyStr "CSK") (PyStr "Uniform") false Sample.world0
      = (Ok m, w')
      /\ value_of (pe_sigma m) = pe_ry m / 4)
  /\ (exists m w',
         Sample.cov3par (lit "matern") (PyStr "None") (PyStr "CSK") (PyStr "Uniform")
           None false Sample.world0 = (Ok m, w')
         /\ c3_ry m <= 4000
         /\ value_of (c3_sigma m) = c3_ry m / 4).
Proof.
  destruct (named_sigma_priors_start_at_quarter_range Sample.float_of_str Sample.fmt
              Sample.fmt Sample.loglike_prh) as [Hp Hc].
  split.
  - eexists. eexists. split; [reflexivity |].
    apply (proj1 (Hp "Gamma" (PyStr "CSK") (PyStr "Uniform") false Sample.world0
                    _ _ eq_refl sample_not_constant)).
    simpl. auto.
  - assert (Hle : range_of (marr (zydata_obj Sample.world0)) <= 4000)
      by (rewrite sample_range; lra).
    eexists. eexists. split; [reflexivity |]. split; [exact Hle |].
    exact (proj1 (proj2 (Hc (lit "matern") "None" (PyStr "CSK") (PyStr "Uniform") None
                           false Sample.world0 _ _ eq_refl sample_not_constant)
                    eq_refl) Hle).
Defined.

Lemma tau_logp_is_double_lobed_witness :
  0 < 2 /\ 1 < 3 /\ 2 * 3 < 10000
  /\ tau_logp 2 (2 * 3) = Some (Finite (- ln 3))
  /\ tau_logp 2 (2 / 3) = Some (Finite (- ln 3))
  /\ tau_logp 2 5 <> None.
Proof.
  assert (H0 : 0 < 2) by lra. assert (H1 : 1 < 3) by lra.
  assert (H2 : 2 * 3 < 10000) by lra.
  destruct (tau_logp_is_double_lobed 2 H0) as (Ht & _ & Hk).
  destruct (Hk 3 H1 H2) as [Ha Hb].
  repeat (split; [assumption |]). exact (Ht 5).
Defined.

Lemma tau_logp_cut_off_witness :
  (1 < 10000 /\ 10000 <= 20000 /\ tau_logp 1 20000 = Some NegInf)
  /\ (10000 <= 20000 <= 30000
      /\ tau_logp 30000 20000 = Some (Finite (- ln (30000 / 20000))))
  /\ (0 <= 1 /\ -2 <= 0 /\ tau_logp 1 (-2) = Some NegInf).
Proof.
  assert (H1 : 1 < 10000) by lra. assert (H2 : 10000 <= 20000) by lra.
  assert (H3 : 10000 <= 20000 <= 30000) by lra.
  assert (H4 : 0 <= 1) by lra. assert (H5 : -2 <= 0) by lra.
  split; [| split].
  - split; [exact H1 |]. split; [exact H2 |].
    exact (proj1 (tau_logp_cut_off 1 20000) H1 H2).
  - split; [exact H3 |]. exact (proj1 (proj2 (tau_logp_cut_off 30000 20000)) H3).
  - split; [exact H4 |]. split; [exact H5 |].
    exact (proj2 (proj2 (tau_logp_cut_off 1 (-2))) H4 H5).
Defined.

Lemma csk_tau_initial_log_density_witness :
  0 < cont_cad (zydata_obj Sample.world0) <= rj (zydata_obj Sample.world0)
  /\ exists m w',
      Sample.powexp (PyStr "CSK") (PyStr "CSK") (PyStr "Uniform") false Sample.world0
      = (Ok m, w')
      /\ exists logp,
          pe_tau m = Stochastic "tau" logp (value_of (pe_tau m))
          /\ logp (value_of (pe_tau m)) = Some (Finite (- ((ln 100 - ln 1) / 2))).
Proof.
  assert (H1 : 0 < cont_cad (zydata_obj Sample.world0) <= rj (zydata_obj Sample.world0))
    by (simpl; lra).
  assert (H2 : rj (zydata_obj Sample.world0) * cont_cad (zydata_obj Sample.world0)
               < 10000 * 10000) by (simpl; lra).
  split; [exact H1 |].
  eexists. eexists. split; [reflexivity |].
  exact (proj1 (csk_tau_initial_log_density Sample.float_of_str Sample.fmt Sample.fmt
                  Sample.loglike_prh Sample.world0 H1 H2)
           (PyStr "CSK") (PyStr "Uniform") false _ _ eq_refl).
Defined.

Lemma guarded_sigma_shape_witness :
  1e-6 <= 4
  /\ sigma_of_invsigsq_guarded 4 = sigma_of_invsigsq 4
  /\ Rabs 0 < 1e-6 /\ 1e-6 <= Rabs (-4)
  /\ sigma_of_invsigsq_guarded (-4) <= 1000 < sigma_of_invsigsq_guarded 0.
Proof.
  destruct guarded_sigma_shape as (_ & Ha & Hj).
  assert (H1 : 1e-6 <= 4) by lra.
  assert (H2 : Rabs 0 < 1e-6) by (rewrite Rabs_R0; lra).
  assert (H3 : 1e-6 <= Rabs (-4)) by (rewrite Rabs_left; lra).
  split; [exact H1 |]. split; [exact (Ha 4 H1) |].
  split; [exact H2 |]. split; [exact H3 |]. exact (Hj 0 (-4) H2 H3).
Defined.

Lemma invsigsq_is_declared_with_deterministic_sigma_witness :
  exists m w',
    Sample.powexp (PyStr "Vague") (PyStr "CSK") (PyStr "Uniform") false Sample.world0
    = (Ok m, w')
    /\ named ["Vague"; "Gamma"; "None"] (PyStr "Vague") = true
    /\ pe_invsigsq m <> None.
Proof.
  eexists. eexists. split; [reflexivity |]. split; [reflexivity |].
  exact (proj2 (proj1 (proj1 (invsigsq_is_declared_with_deterministic_sigma
                                Sample.float_of_str Sample.fmt Sample.fmt
                                Sample.loglike_prh)
                         (PyStr "Vague") (PyStr "CSK") (PyStr "Uniform") false
                         Sample.world0 _ _ eq_refl)) eq_refl).
Defined.
